(** * Review scraper: link discovery, paginated fetch with fallback,
      heuristic review extraction, deduplication and date filtering.

    A shallow embedding of [main.py].  Python [str] values are Rocq
    strings (one [ascii] stands for one character), the libraries the
    program calls (requests, selenium, BeautifulSoup, dateutil, urllib)
    are interfaces, and effects are written to an event log. *)

From Stdlib Require Import ZArith Ascii String DecimalString.
From stdpp Require Import base list gmap strings.

Local Open Scope Z_scope.

(** ** Python string operations *)

Module Str.

Definition len (s : string) : Z := Z.of_nat (String.length s).

(** [s[:n]] *)
Definition take (n : nat) (s : string) : string := String.substring 0 n s.

(** [s.startswith(p)] *)
Fixpoint startswith (p s : string) : bool :=
  match p, s with
  | EmptyString, _ => true
  | String a p', String b s' => if Ascii.eqb a b then startswith p' s' else false
  | String _ _, EmptyString => false
  end.

(** [p in s] *)
Fixpoint contains (p s : string) : bool :=
  if startswith p s then true
  else match s with
       | EmptyString => false
       | String _ s' => contains p s'
       end.

Fixpoint rev_onto (s acc : string) : string :=
  match s with
  | EmptyString => acc
  | String c s' => rev_onto s' (String c acc)
  end.

Definition rev (s : string) : string := rev_onto s EmptyString.

(** [s.endswith(p)] *)
Definition endswith (p s : string) : bool := startswith (rev p) (rev s).

(** [sep.join(parts)] *)
Fixpoint join (sep : string) (parts : list string) : string :=
  match parts with
  | [] => EmptyString
  | [p] => p
  | p :: rest => p +:+ sep +:+ join sep rest
  end.

(** [s.split(c)] for a one-character separator: every occurrence cuts,
    empty pieces are kept. *)
Fixpoint split_on (c : ascii) (s : string) : list string :=
  match s with
  | EmptyString => [EmptyString]
  | String a s' =>
      if Ascii.eqb a c then EmptyString :: split_on c s'
      else match split_on c s' with
           | [] => [String a EmptyString]
           | w :: ws => String a w :: ws
           end
  end.

Section Whitespace.
(** [str.isspace] on one character, from the Unicode database. *)
Variable isspace : ascii -> bool.

(** Whether [s] begins with a character that is not whitespace. *)
Definition starts_word (s : string) : bool :=
  match s with
  | EmptyString => false
  | String b _ => negb (isspace b)
  end.

(** [s.split()]: the maximal runs of characters that are not
    whitespace, in order; no empty pieces. *)
Fixpoint split (s : string) : list string :=
  match s with
  | EmptyString => []
  | String a s' =>
      if isspace a then split s'
      else if starts_word s'
      then match split s' with
           | w :: ws => String a w :: ws
           | [] => [String a EmptyString]
           end
      else String a EmptyString :: split s'
  end.

Fixpoint lstrip (s : string) : string :=
  match s with
  | EmptyString => EmptyString
  | String a s' => if isspace a then lstrip s' else s
  end.

Fixpoint rstrip (s : string) : string :=
  match s with
  | EmptyString => EmptyString
  | String a s' =>
      match rstrip s' with
      | EmptyString => if isspace a then EmptyString else String a EmptyString
      | r => String a r
      end
  end.

(** [s.strip()] *)
Definition strip (s : string) : string := rstrip (lstrip s).
End Whitespace.

(** Decimal rendering of a non-negative integer, left-padded with zeros
    to [width] characters (the [%04d] / [%02d] of [date.isoformat]). *)
Definition decimal (n : Z) : string := NilZero.string_of_uint (N.to_uint (Z.to_N n)).

Fixpoint zeros (n : nat) : string :=
  match n with O => EmptyString | S n' => String "0"%char (zeros n') end.

Definition padded (width : nat) (n : Z) : string :=
  let d := decimal n in
  zeros (width - String.length d) +:+ d.

End Str.

(** Truth value of a Python [str]: the empty string is falsy. *)
Definition truthy (s : string) : bool :=
  match s with EmptyString => false | _ => true end.

(** ** Calendar dates ([datetime.date]) *)

Record Date := mkDate { year : Z; month : Z; day : Z }.

(** [a <= b] on dates: comparison of the (year, month, day) triples. *)
Definition date_le (a b : Date) : bool :=
  (year a <? year b)
  || ((year a =? year b)
      && ((month a <? month b)
          || ((month a =? month b) && (day a <=? day b)))).

(** [d.isoformat()] *)
Definition isoformat (d : Date) : string :=
  Str.padded 4 (year d) +:+ "-" +:+ Str.padded 2 (month d) +:+ "-" +:+ Str.padded 2 (day d).

(** ** Exceptions, outcomes and the event log *)

(** [requests.Response]: the status code and the decoded body. *)
Record Response := mkResponse { status_code : Z; text : string }.

(** The [Exception] subclasses the program meets.  [SystemExit] is not an
    [Exception]; it is an outcome of its own below. *)
Inductive exn :=
| HTTPError (msg : string) (response : option Response)
| RequestException (msg : string)
| WebDriverException (msg : string)
| RuntimeError (msg : string)
| ValueError (msg : string)
| OSError (msg : string).

(** [str(e)] *)
Definition exn_str (e : exn) : string :=
  match e with
  | HTTPError m _ | RequestException m | WebDriverException m
  | RuntimeError m | ValueError m | OSError m => m
  end.

(** One review, the dict literal built by [parse_reviews_from_soup]. *)
Record Additional := mkAdditional { rating : option string; reviewer : option string }.

Record Review := mkReview {
  title : string;
  description : string;
  date : option string;
  source : string;
  additional : Additional
}.

(** The same literal as JSON sees it: keys in the order written, [None]
    for null. *)
#[local] Unset Elimination Schemes.
Inductive value :=
| VNone
| VStr (s : string)
| VDict (items : list (string * value)).
#[local] Set Elimination Schemes.

Definition opt_value (o : option string) : value :=
  match o with Some s => VStr s | None => VNone end.

Definition review_dict (r : Review) : list (string * value) :=
  [ ("title", VStr (title r));
    ("description", VStr (description r));
    ("date", opt_value (date r));
    ("source", VStr (source r));
    ("additional", VDict [ ("rating", opt_value (rating (additional r)));
                           ("reviewer", opt_value (reviewer (additional r))) ]) ].

(** [d.get(key)] with absence made visible: [None] when [key] is not a
    key of [d]. *)
Fixpoint dict_get (key : string) (d : list (string * value)) : option value :=
  match d with
  | [] => None
  | (k, v) :: rest => if String.eqb k key then Some v else dict_get key rest
  end.

(** The object [main] serialises into the output file. *)
Record Report := mkReport {
  out_company : string;
  out_start : string;
  out_end : string;
  out_source : string;
  out_reviews : list Review
}.

Inductive event :=
| EvPrint (line : string)                 (* print(line) *)
| EvGet (url : string)                    (* session.get(url, timeout=15) *)
| EvChrome (url : string)                 (* driver.get(url), on a Chrome that has started *)
| EvSleep (tenths : Z)                    (* sleep(tenths / 10) *)
| EvWrite (path : string) (out : Report). (* json.dump(out, f), once open(path, "w") has returned *)

Inductive outcome (A : Type) :=
| Ok (a : A)          (* the call returns [a] *)
| Raise (e : exn)     (* an [Exception] propagates *)
| Exit (code : Z)     (* [sys.exit(code)] *)
| Diverge.            (* the loop budget of the model ran out *)
Arguments Ok {A} a.
Arguments Raise {A} e.
Arguments Exit {A} code.
Arguments Diverge {A}.

(** A computation: the events it performed, in order, and how it ended. *)
Definition M (A : Type) : Type := list event * outcome A.

Definition ret {A} (a : A) : M A := ([], Ok a).
Definition raise {A} (e : exn) : M A := ([], Raise e).
Definition sys_exit {A} (code : Z) : M A := ([], Exit code).
Definition emit (ev : event) : M unit := ([ev], Ok tt).
Definition print (line : string) : M unit := emit (EvPrint line).
(** A call that logs nothing: it returns or raises. *)
Definition returned {A} (o : outcome A) : M A := ([], o).
Definition sleep (tenths : Z) : M unit := emit (EvSleep tenths).

Definition bind {A B} (m : M A) (k : A -> M B) : M B :=
  match m with
  | (l, Ok a) => let '(l', o) := k a in (l ++ l', o)
  | (l, Raise e) => (l, Raise e)
  | (l, Exit c) => (l, Exit c)
  | (l, Diverge) => (l, Diverge)
  end.

(** [try: m  except Exception as e: handler e] *)
Definition try_except {A} (m : M A) (handler : exn -> M A) : M A :=
  match m with
  | (l, Raise e) => let '(l', o) := handler e in (l ++ l', o)
  | _ => m
  end.

Notation "x <- m ;; k" := (bind m (fun x => k))
  (at level 100, m at next level, right associativity).
Notation "m ;;; k" := (bind m (fun _ => k))
  (at level 100, right associativity).

(** ** The libraries, as interfaces *)

(** The element filters the program passes to [find] / [find_all]. *)
Inductive query :=
| Named (names : list string)                       (* find_all(["time", "span", "p"]), find("h3") *)
| NamedWithAttr (name attribute : string)           (* find_all("a", href=True) *)
| WithAttr (attribute : string)                     (* find_all(attrs={"data-review-id": True}) *)
| WithClass (p : option string -> bool)             (* find_all(class_=p) *)
| NamedRel (name rel : string)                      (* find("link", rel="canonical") *)
| NamedString (name : string) (p : option string -> bool). (* find("a", string=p) *)

(** The calls into bs4 and [quote_plus] are taken to return; [urljoin]
    and dateutil may raise. *)
Class Library := {
  (** bs4: a parsed document or one of its elements *)
  Tag : Type;
  BeautifulSoup : string -> Tag;               (* BeautifulSoup(html, "html.parser") *)
  find_all : query -> Tag -> list Tag;         (* matches in document order *)
  select : string -> Tag -> list Tag;          (* CSS selector *)
  get_text : string -> bool -> Tag -> string;  (* get_text(separator, strip) *)
  markup : Tag -> string;                      (* str(el) *)
  attr : Tag -> string -> option string;       (* el.get(name) *)
  (** dateutil: [parser.parse(s, fuzzy=b).date()], [None] when it raises;
      it raises on the empty string *)
  dateparser_parse : bool -> string -> option Date;
  dateparser_parse_empty : forall fuzzy, dateparser_parse fuzzy EmptyString = None;
  (** urllib.parse *)
  quote_plus : string -> string;
  (** [urljoin(base, url)]; it raises [ValueError] on a malformed
      reference such as [//[/x] *)
  urljoin : string -> option string -> string + exn;
  (** str methods that depend on the Unicode database *)
  isalnum : ascii -> bool;
  isspace : ascii -> bool;
  lower : string -> string
}.

Class Web := {
  (** whether the selenium imports at the top of the module succeeded *)
  SELENIUM_AVAILABLE : bool;
  (** [session.get(url, timeout=15)] with the retry policy of
      [create_session]: a response, or the exception it raises *)
  session_get : string -> Response + exn;
  (** the message of the [HTTPError] that [raise_for_status] builds *)
  http_error_message : string -> Response -> string;
  (** the headless browser, first part: install the driver and start
      Chrome; [None] when Chrome has started, else the exception raised *)
  chrome_start : option exn;
  (** the headless browser, on a started Chrome: load the page, read
      [page_source], quit; the page or the exception raised *)
  chrome_page_source : string -> string + exn;
  (** the [with open(path, "w", encoding="utf-8")] block that dumps the
      report: [None] when the file is opened and the report written,
      else the exception raised *)
  write_output : string -> Report -> option exn
}.

(** ** The program *)

Section Program.
Context {lib : Library} {web : Web}.

(** [soup.find(...)]: the first result of [find_all], if any. *)
Definition find (q : query) (t : Tag) : option Tag := head (find_all q t).

(** [soup.select_one(sel)] *)
Definition select_one (sel : string) (t : Tag) : option Tag := head (select sel t).

(** [a["href"]] on an anchor selected with [href=True], which carries
    the attribute. *)
Definition getitem (t : Tag) (key : string) : string := default EmptyString (attr t key).

(** [t and t.get("href")] as a condition. *)
Definition has_href (t : option Tag) : bool :=
  match t with
  | Some a => match attr a "href" with Some h => truthy h | None => false end
  | None => false
  end.

(** *** fetch *)

Definition raise_for_status (url : string) (r : Response) : M unit :=
  if (400 <=? status_code r) && (status_code r <? 600)
  then raise (HTTPError (http_error_message url r) (Some r))
  else ret tt.

(** [getattr(e.response, "status_code", None) == 403] *)
Definition response_is_403 (response : option Response) : bool :=
  match response with
  | Some r => status_code r =? 403
  | None => false
  end.

(** How the first [try] block of [fetch] ends when it does not raise:
    it returns the body, or falls through with [use_selenium] updated. *)
Inductive flow := Return (html : string) | Fallthrough (use_selenium : bool).

Definition selenium_fetch (url : string) : M string :=
  try_except
    (match chrome_start with
     | Some e => raise e
     | None =>
         emit (EvChrome url) ;;;
         match chrome_page_source url with
         | inl html => sleep 20 ;;; ret html
         | inr e => raise e
         end
     end)
    (fun e => raise (RuntimeError ("Selenium fetch failed: " +:+ exn_str e))).

Definition fetch (url : string) (use_selenium : bool) : M string :=
  step <- try_except
            (emit (EvGet url) ;;;
             match session_get url with
             | inr e => raise e
             | inl r =>
                 if (status_code r =? 403) && SELENIUM_AVAILABLE
                 then ret (Fallthrough true)
                 else raise_for_status url r ;;; ret (Return (text r))
             end)
            (fun e =>
               match e with
               | HTTPError _ response =>
                   if response_is_403 response && SELENIUM_AVAILABLE
                   then ret (Fallthrough true)
                   else raise e
               | _ => raise e
               end) ;;
  match step with
  | Return html => ret html
  | Fallthrough use_selenium =>
      if use_selenium && SELENIUM_AVAILABLE
      then selenium_fetch url
      else raise (RuntimeError ("Unable to fetch URL: " +:+ url))
  end.

(** *** Link discovery *)

(** [urljoin(base, href)] as the link a search or a page gives. *)
Definition found_link (base : string) (href : option string) : outcome (option string) :=
  match urljoin base href with
  | inl link => Ok (Some link)
  | inr e => Raise e
  end.

(** The anchor loop shared by the three searches: the [href] of the
    first anchor, in document order, that [p] accepts. *)
Fixpoint first_href (p : string -> bool) (anchors : list Tag) : option string :=
  match anchors with
  | [] => None
  | a :: rest =>
      let href := getitem a "href" in
      if p href then Some href else first_href p rest
  end.

Definition product_href (href : string) : bool :=
  Str.startswith "/products/" href || Str.contains "/products/" href
  || Str.contains "/product/" href.

Definition g2_search_company_link (company : string) (use_selenium : bool)
  : M (option string) :=
  let q := quote_plus company in
  let url := "https://www.g2.com/search?q=" +:+ q in
  html <- fetch url use_selenium ;;
  let soup := BeautifulSoup html in
  match first_href product_href (find_all (NamedWithAttr "a" "href") soup) with
  | Some href => returned (found_link "https://www.g2.com" (Some href))
  | None => ret None
  end.

Definition slug_keeps (c : ascii) : bool :=
  isalnum c || isspace c || Ascii.eqb c "-".

Fixpoint keep_chars (keep : ascii -> bool) (s : string) : string :=
  match s with
  | EmptyString => EmptyString
  | String c s' => if keep c then String c (keep_chars keep s') else keep_chars keep s'
  end.

Definition slugify (name : string) : string :=
  let s := lower name in
  let s := keep_chars slug_keeps s in
  Str.join "-" (Str.split isspace s).

Definition capterra_candidates (company : string) : list string :=
  let q := quote_plus company in
  let candidates := [ "https://www.capterra.com/search?search=" +:+ q;
                      "https://www.capterra.com/search?query=" +:+ q ] in
  let slug := slugify company in
  candidates ++ [ "https://www.capterra.com/p/" +:+ slug;
                  "https://www.capterra.com/software/" +:+ slug ].

Definition capterra_href (href : string) : bool :=
  Str.startswith "/p" href || Str.contains "/product/" href
  || Str.contains "/software/" href || Str.startswith "/vendor/" href.

(** What one fetched candidate page yields: the first matching anchor,
    else the canonical link, else nothing. *)
Definition capterra_page_link (soup : Tag) : outcome (option string) :=
  match first_href capterra_href (find_all (NamedWithAttr "a" "href") soup) with
  | Some href => found_link "https://www.capterra.com" (Some href)
  | None =>
      let can := find (NamedRel "link" "canonical") soup in
      if has_href can
      then Ok (match can with Some c => attr c "href" | None => None end)
      else Ok None
  end.

Fixpoint capterra_try (candidates : list string) (use_selenium : bool)
  : M (option string) :=
  match candidates with
  | [] => ret None
  | url :: rest =>
      page <- try_except (html <- fetch url use_selenium ;; ret (Some html))
                         (fun _ => ret None) ;;
      match page with
      | None => capterra_try rest use_selenium
      | Some html =>
          found <- returned (capterra_page_link (BeautifulSoup html)) ;;
          match found with
          | Some link => ret (Some link)
          | None => capterra_try rest use_selenium
          end
      end
  end.

Definition capterra_search_company_link (company : string) (use_selenium : bool)
  : M (option string) :=
  capterra_try (capterra_candidates company) use_selenium.

Definition trustradius_search_company_link (company : string) (use_selenium : bool)
  : M (option string) :=
  let q := quote_plus company in
  let url := "https://www.trustradius.com/search?query=" +:+ q in
  html <- fetch url use_selenium ;;
  let soup := BeautifulSoup html in
  match first_href product_href (find_all (NamedWithAttr "a" "href") soup) with
  | Some href => returned (found_link "https://www.trustradius.com" (Some href))
  | None => ret None
  end.

(** *** Review extraction *)

(** [lambda c: c and "review" in c.lower()] *)
Definition review_class (c : option string) : bool :=
  match c with
  | Some c => truthy c && Str.contains "review" (lower c)
  | None => false
  end.

Definition review_candidates (soup : Tag) : list Tag :=
  let candidates := [] in
  let candidates := candidates ++ find_all (WithAttr "data-review-id") soup in
  let candidates := candidates ++ find_all (WithClass review_class) soup in
  candidates ++ select "div.g2-review, div.c-review, div.review-card, article" soup.

(** The title loop: the first of [h3], [h4], [h2] that [el] contains. *)
Fixpoint heading_title (names : list string) (el : Tag) : option string :=
  match names with
  | [] => None
  | h :: rest =>
      match find (Named [h]) el with
      | Some hh => Some (get_text EmptyString true hh)
      | None => heading_title rest el
      end
  end.

(** The date loop: the first element whose text parses as a date. *)
Fixpoint first_date (els : list Tag) : option Date :=
  match els with
  | [] => None
  | time_el :: rest =>
      let st := get_text EmptyString true time_el in
      match dateparser_parse true st with
      | Some d => Some d
      | None => first_date rest
      end
  end.

Definition rating_token (token : string) : bool :=
  Str.endswith "/5" token || Str.endswith " out of 5" token
  || Str.startswith "rating" (lower token).

Fixpoint first_rating (tokens : list string) : option string :=
  match tokens with
  | [] => None
  | token :: rest => if rating_token token then Some token else first_rating rest
  end.

(** The body of the candidate loop once the text has passed the length
    test: the dict literal. *)
Definition build_review (el : Tag) (text source : string) : Review :=
  let title := heading_title ["h3"; "h4"; "h2"] el in
  let date := first_date (find_all (Named ["time"; "span"; "p"]) el) in
  let reviewer : option string := None in
  let text_tokens :=
    map (Str.strip isspace) (Str.split_on "|" (get_text " | " false el)) in
  let rating := first_rating text_tokens in
  {| title := if truthy text
              then match title with
                   | Some t => if truthy t then t else Str.take 120 text +:+ "..."
                   | None => Str.take 120 text +:+ "..."
                   end
              else EmptyString;
     description := text;
     date := match date with Some d => Some (isoformat d) | None => None end;
     source := source;
     additional := {| rating := rating; reviewer := reviewer |} |}.

(** The candidate loop; [seen] holds the markup of the candidates
    already met, [reviews] the records appended so far. *)
Fixpoint extract_loop (source : string) (candidates : list Tag)
    (seen : gset string) (reviews : list Review) : list Review :=
  match candidates with
  | [] => reviews
  | el :: rest =>
      let html_text := markup el in
      if decide (html_text ∈ seen) then extract_loop source rest seen reviews
      else
        let seen := seen ∪ {[html_text]} in
        let text := get_text " " true el in
        if negb (truthy text) || (Str.len text <? 40)
        then extract_loop source rest seen reviews
        else extract_loop source rest seen (reviews ++ [build_review el text source])
  end.

(** The closing loop of [parse_reviews_from_soup]: one record per
    description text. *)
Fixpoint dedupe_loop (reviews : list Review) (seen_desc : gset string)
    (unique : list Review) : list Review :=
  match reviews with
  | [] => unique
  | r :: rest =>
      let desc := description r in
      if negb (truthy desc) || bool_decide (desc ∈ seen_desc)
      then dedupe_loop rest seen_desc unique
      else dedupe_loop rest (seen_desc ∪ {[desc]}) (unique ++ [r])
  end.

Definition dedupe (reviews : list Review) : list Review := dedupe_loop reviews ∅ [].

Definition parse_reviews_from_soup (soup : Tag) (source : string) : list Review :=
  let reviews := extract_loop source (review_candidates soup) ∅ [] in
  dedupe reviews.

(** *** Pagination and the date filter *)

(** [lambda s: s and "next" in s.lower()] *)
Definition next_text (s : option string) : bool :=
  match s with
  | Some s => truthy s && Str.contains "next" (lower s)
  | None => false
  end.

(** The "find next link" block of the walk. *)
Definition find_next_link (next_url : string) (soup : Tag) : outcome (option string) :=
  let a := find (NamedString "a" next_text) soup in
  if has_href a
  then match a with
       | Some a => found_link next_url (attr a "href")
       | None => Ok None
       end
  else match find (NamedRel "link" "next") soup with
       | Some l => let nl := attr l "href" in found_link next_url nl
       | None =>
           let nxt := select_one "a.pagination-next, a.next" soup in
           if has_href nxt
           then match nxt with
                | Some n => found_link next_url (attr n "href")
                | None => Ok None
                end
           else Ok None
       end.

(** The [while] of [_scrape_with_pagination]; [fuel] bounds the number
    of iterations the model runs. *)
Fixpoint walk_loop (fuel : nat) (source : string) (use_selenium : bool)
    (next_url : option string) (visited : gset string) (reviews : list Review)
  : M (list Review) :=
  match next_url with
  | None => ret reviews
  | Some url =>
      if truthy url && negb (bool_decide (url ∈ visited))
      then
        match fuel with
        | O => ([], Diverge)
        | S fuel' =>
            let visited := visited ∪ {[url]} in
            page <- try_except (html <- fetch url use_selenium ;; ret (Some html))
                               (fun e =>
                                  print ("Error fetching page " +:+ url +:+ ": " +:+ exn_str e) ;;;
                                  ret None) ;;
            match page with
            | None => ret reviews
            | Some html =>
                let soup := BeautifulSoup html in
                let reviews := reviews ++ parse_reviews_from_soup soup source in
                next_link <- returned (find_next_link url soup) ;;
                sleep 8 ;;;
                walk_loop fuel' source use_selenium next_link visited reviews
            end
        end
      else ret reviews
  end.

(** The filter loop at the end of [_scrape_with_pagination]; the
    [except Exception] branch is the case where the date string does
    not parse. *)
Fixpoint filter_loop (start_date end_date : Date) (reviews filtered : list Review)
  : list Review :=
  match reviews with
  | [] => filtered
  | r :: rest =>
      match date r with
      | None => filter_loop start_date end_date rest (filtered ++ [r])
      | Some s =>
          if negb (truthy s)
          then filter_loop start_date end_date rest (filtered ++ [r])
          else match dateparser_parse false s with
               | Some d =>
                   if date_le start_date d && date_le d end_date
                   then filter_loop start_date end_date rest (filtered ++ [r])
                   else filter_loop start_date end_date rest filtered
               | None => filter_loop start_date end_date rest (filtered ++ [r])
               end
      end
  end.

Definition filter_by_date (start_date end_date : Date) (reviews : list Review)
  : list Review :=
  filter_loop start_date end_date reviews [].

Definition _scrape_with_pagination (fuel : nat) (start_url source : string)
    (start_date end_date : Date) (use_selenium : bool) : M (list Review) :=
  reviews <- walk_loop fuel source use_selenium (Some start_url) ∅ [] ;;
  ret (filter_by_date start_date end_date reviews).

(** *** The three sources and [main] *)

Definition scrape_g2 (fuel : nat) (company : string) (start_date end_date : Date)
    (use_selenium : bool) : M (list Review) :=
  print ("[G2] searching for company page: " +:+ company) ;;;
  link <- g2_search_company_link company use_selenium ;;
  match link with
  | Some link =>
      if truthy link
      then print ("[G2] found: " +:+ link) ;;;
           _scrape_with_pagination fuel link "g2" start_date end_date use_selenium
      else print "[G2] Company page not found" ;;; ret []
  | None => print "[G2] Company page not found" ;;; ret []
  end.

Definition scrape_capterra (fuel : nat) (company : string) (start_date end_date : Date)
    (use_selenium : bool) : M (list Review) :=
  print ("[Capterra] searching for company page: " +:+ company) ;;;
  link <- capterra_search_company_link company use_selenium ;;
  match link with
  | Some link =>
      if truthy link
      then print ("[Capterra] found: " +:+ link) ;;;
           _scrape_with_pagination fuel link "capterra" start_date end_date use_selenium
      else print "[Capterra] Company page not found" ;;; ret []
  | None => print "[Capterra] Company page not found" ;;; ret []
  end.

Definition scrape_trustradius (fuel : nat) (company : string)
    (start_date end_date : Date) (use_selenium : bool) : M (list Review) :=
  print ("[TrustRadius] searching for company page: " +:+ company) ;;;
  link <- trustradius_search_company_link company use_selenium ;;
  match link with
  | Some link =>
      if truthy link
      then print ("[TrustRadius] found: " +:+ link) ;;;
           _scrape_with_pagination fuel link "trustradius" start_date end_date use_selenium
      else print "[TrustRadius] Company page not found" ;;; ret []
  | None => print "[TrustRadius] Company page not found" ;;; ret []
  end.

(** The [--source] choices argparse accepts. *)
Inductive source_choice := G2 | Capterra | TrustRadius | AllSources.

Definition choice_name (c : source_choice) : string :=
  match c with
  | G2 => "g2"
  | Capterra => "capterra"
  | TrustRadius => "trustradius"
  | AllSources => "all"
  end.

(** The namespace [parse_args] returns. *)
Record Args := mkArgs {
  arg_company : string;
  arg_start : string;
  arg_end : string;
  arg_source : source_choice;
  arg_output : string;
  arg_use_selenium : bool;
  arg_proxy : option string
}.

Definition parse_date (dstr : string) : M Date :=
  match dateparser_parse false dstr with
  | Some d => ret d
  | None => raise (ValueError ("Invalid date: " +:+ dstr))
  end.

(** The [for s in srcs] loop of [main]. *)
Fixpoint scrape_sources (fuel : nat) (company : string) (start_date end_date : Date)
    (use_selenium : bool) (srcs : list string) (results : list Review)
  : M (list Review) :=
  match srcs with
  | [] => ret results
  | s :: rest =>
      results <-
        try_except
          (if String.eqb s "g2"
           then found <- scrape_g2 fuel company start_date end_date use_selenium ;;
                ret (results ++ found)
           else if String.eqb s "capterra"
           then found <- scrape_capterra fuel company start_date end_date use_selenium ;;
                ret (results ++ found)
           else if String.eqb s "trustradius"
           then found <- scrape_trustradius fuel company start_date end_date use_selenium ;;
                ret (results ++ found)
           else ret results)
          (fun e =>
             print ("Error scraping " +:+ s +:+ ": " +:+ exn_str e) ;;; ret results) ;;
      scrape_sources fuel company start_date end_date use_selenium rest results
  end.

(** [main]; the session built by [create_session] is the [session_get]
    of the [Web] at hand. *)
Definition main (fuel : nat) (args : Args) : M unit :=
  dates <- try_except
             (start_date <- parse_date (arg_start args) ;;
              end_date <- parse_date (arg_end args) ;;
              ret (start_date, end_date))
             (fun e =>
                match e with
                | ValueError _ => print (exn_str e) ;;; sys_exit 1
                | _ => raise e
                end) ;;
  let start_date := fst dates in
  let end_date := snd dates in
  use_selenium <-
    (if arg_use_selenium args && negb SELENIUM_AVAILABLE
     then print "Selenium or webdriver-manager not available; install requirements and retry with --use-selenium" ;;;
          ret false
     else ret (arg_use_selenium args)) ;;
  let srcs := match arg_source args with
              | AllSources => ["g2"; "capterra"; "trustradius"]
              | c => [choice_name c]
              end in
  results <- scrape_sources fuel (arg_company args) start_date end_date
               use_selenium srcs [] ;;
  let out := {| out_company := arg_company args;
                out_start := isoformat start_date;
                out_end := isoformat end_date;
                out_source := choice_name (arg_source args);
                out_reviews := results |} in
  match write_output (arg_output args) out with
  | Some e => raise e
  | None => emit (EvWrite (arg_output args) out)
  end ;;;
  print ("Wrote " +:+ Str.decimal (Z.of_nat (length results)) +:+ " reviews to "
         +:+ arg_output args).

(** The exit status of the process for a run of [main]. *)
Definition exit_code {A} (o : outcome A) : option Z :=
  match o with
  | Ok _ => Some 0
  | Raise _ => Some 1
  | Exit c => Some c
  | Diverge => None
  end.

End Program.

(** ** A small executable instance of the interfaces

    Documents are trees, the string methods cover the ASCII range, dates
    are read in ISO form.  It serves to run the program on concrete pages. *)

Module Mini.

#[local] Unset Elimination Schemes.
Inductive node :=
| Text (s : string)
| Elem (name : string) (attrs : list (string * string)) (children : list node).

#[local] Set Elimination Schemes.

Definition code (c : ascii) : Z := Z.of_nat (nat_of_ascii c).

Definition isspace (c : ascii) : bool :=
  let n := code c in ((9 <=? n) && (n <=? 13)) || ((28 <=? n) && (n <=? 32)).

Definition isalnum (c : ascii) : bool :=
  let n := code c in
  ((48 <=? n) && (n <=? 57)) || ((65 <=? n) && (n <=? 90)) || ((97 <=? n) && (n <=? 122)).

Definition lower_char (c : ascii) : ascii :=
  let n := code c in
  if (65 <=? n) && (n <=? 90) then ascii_of_nat (nat_of_ascii c + 32) else c.

Fixpoint lower (s : string) : string :=
  match s with
  | EmptyString => EmptyString
  | String c s' => String (lower_char c) (lower s')
  end.

Fixpoint lookup (key : string) (kvs : list (string * string)) : option string :=
  match kvs with
  | [] => None
  | (k, v) :: rest => if String.eqb k key then Some v else lookup key rest
  end.

Definition attr (t : node) (key : string) : option string :=
  match t with
  | Text _ => None
  | Elem _ attrs _ => lookup key attrs
  end.

(** The elements below [t], in document order. *)
Fixpoint descendants (t : node) : list node :=
  match t with
  | Text _ => []
  | Elem _ _ children =>
      (fix go (l : list node) : list node :=
         match l with
         | [] => []
         | c :: l' =>
             match c with
             | Text _ => go l'
             | Elem _ _ _ => c :: descendants c ++ go l'
             end
         end) children
  end.

(** The text nodes below [t], in document order. *)
Fixpoint strings (t : node) : list string :=
  match t with
  | Text s => [s]
  | Elem _ _ children =>
      (fix go (l : list node) : list string :=
         match l with
         | [] => []
         | c :: l' => strings c ++ go l'
         end) children
  end.

Definition get_text (separator : string) (strip : bool) (t : node) : string :=
  let pieces :=
    if strip
    then List.filter truthy (map (Str.strip isspace) (strings t))
    else strings t in
  Str.join separator pieces.

(** [tag.string]: the text of an element whose only child is a text node. *)
Definition only_string (t : node) : option string :=
  match t with
  | Elem _ _ [Text s] => Some s
  | _ => None
  end.

Definition name_of (t : node) : string :=
  match t with Text _ => EmptyString | Elem n _ _ => n end.

Definition name_in (names : list string) (t : node) : bool :=
  existsb (String.eqb (name_of t)) names.

Definition matches (q : query) (t : node) : bool :=
  match q with
  | Named names => name_in names t
  | NamedWithAttr n a => String.eqb (name_of t) n && bool_decide (is_Some (attr t a))
  | WithAttr a => bool_decide (is_Some (attr t a))
  | WithClass p => p (attr t "class")
  | NamedRel n r => String.eqb (name_of t) n && bool_decide (attr t "rel" = Some r)
  | NamedString n p => String.eqb (name_of t) n && p (only_string t)
  end.

Definition find_all (q : query) (t : node) : list node :=
  List.filter (matches q) (descendants t).

Definition has_class (classes : list string) (t : node) : bool :=
  match attr t "class" with
  | Some c => existsb (String.eqb c) classes
  | None => false
  end.

(** The two selectors the program uses. *)
Definition select (selector : string) (t : node) : list node :=
  if String.eqb selector "div.g2-review, div.c-review, div.review-card, article"
  then List.filter
         (fun e => String.eqb (name_of e) "article"
                   || (String.eqb (name_of e) "div"
                       && has_class ["g2-review"; "c-review"; "review-card"] e))
         (descendants t)
  else if String.eqb selector "a.pagination-next, a.next"
  then List.filter
         (fun e => String.eqb (name_of e) "a" && has_class ["pagination-next"; "next"] e)
         (descendants t)
  else [].

Fixpoint markup (t : node) : string :=
  match t with
  | Text s => s
  | Elem n attrs children =>
      "<" +:+ n
      +:+ Str.join "" (map (fun kv => " " +:+ fst kv +:+ "='" +:+ snd kv +:+ "'") attrs)
      +:+ ">"
      +:+ (fix go (l : list node) : string :=
             match l with
             | [] => EmptyString
             | c :: l' => markup c +:+ go l'
             end) children
      +:+ "</" +:+ n +:+ ">"
  end.

Definition digits (s : string) : option Z :=
  match NilZero.uint_of_string s with
  | Some u => Some (Z.of_N (N.of_uint u))
  | None => None
  end.

(** Dates written [YYYY-MM-DD]. *)
Definition parse_iso (fuzzy : bool) (s : string) : option Date :=
  if (String.length s =? 10)%nat
     && String.eqb (String.substring 4 1 s) "-"
     && String.eqb (String.substring 7 1 s) "-"
  then match digits (String.substring 0 4 s),
             digits (String.substring 5 2 s),
             digits (String.substring 8 2 s) with
       | Some y, Some m, Some d =>
           if (1 <=? m) && (m <=? 12) && (1 <=? d) && (d <=? 31)
           then Some (mkDate y m d) else None
       | _, _, _ => None
       end
  else None.

Fixpoint quote_plus (s : string) : string :=
  match s with
  | EmptyString => EmptyString
  | String c s' => String (if Ascii.eqb c " " then "+"%char else c) (quote_plus s')
  end.

(** The network location of a reference that begins with two slashes:
    what follows them, up to the next slash, question mark or hash. *)
Fixpoint upto_delimiter (s : string) : string :=
  match s with
  | EmptyString => EmptyString
  | String c s' =>
      if Ascii.eqb c "/" || Ascii.eqb c "?" || Ascii.eqb c "#" then EmptyString
      else String c (upto_delimiter s')
  end.

Definition netloc (u : string) : string :=
  match u with
  | String a (String b rest) =>
      if Ascii.eqb a "/" && Ascii.eqb b "/" then upto_delimiter rest else EmptyString
  | _ => EmptyString
  end.

(** [urlsplit] refuses a network location with one square bracket and
    not the other. *)
Definition unbalanced (loc : string) : bool :=
  xorb (Str.contains "[" loc) (Str.contains "]" loc).

(** Absolute references replace the base; others are appended to it,
    which is what [urljoin] does with a path on a bare site root. *)
Definition urljoin (base : string) (url : option string) : string + exn :=
  match url with
  | None => inl base
  | Some u =>
      if negb (truthy u) then inl base
      else if unbalanced (netloc u) then inr (ValueError "Invalid IPv6 URL")
      else if Str.startswith "http" u then inl u
      else inl (base +:+ u)
  end.

(** Documents are looked up by their source text in [docs]. *)
Fixpoint parse (docs : list (string * node)) (html : string) : node :=
  match docs with
  | [] => Elem "html" [] []
  | (src, doc) :: rest => if String.eqb src html then doc else parse rest html
  end.

(** The library for a given parser of page sources. *)
Definition library_of (parser : string -> node) : Library :=
  Build_Library node parser find_all select get_text markup attr
    parse_iso (fun _ => eq_refl) quote_plus urljoin isalnum isspace lower.

Definition library (docs : list (string * node)) : Library :=
  library_of (parse docs).

(** A web given by a table of responses; any other URL is a connection
    error, and selenium is installed when [selenium] holds a table of the
    pages Chrome renders.  Chrome starts; no file can be opened in the
    directory [/missing]. *)
Fixpoint get (pages : list (string * Response)) (url : string) : Response + exn :=
  match pages with
  | [] => inr (RequestException ("Connection refused: " +:+ url))
  | (u, r) :: rest => if String.eqb u url then inl r else get rest url
  end.

Fixpoint render (rendered : list (string * string)) (url : string) : string + exn :=
  match rendered with
  | [] => inr (WebDriverException ("net::ERR_CONNECTION_REFUSED " +:+ url))
  | (u, html) :: rest => if String.eqb u url then inl html else render rest url
  end.

Definition web (pages : list (string * Response))
    (selenium : option (list (string * string))) : Web :=
  Build_Web (bool_decide (is_Some selenium)) (get pages)
    (fun url r => Str.decimal (status_code r) +:+ " Error for url: " +:+ url)
    None
    (render (default [] selenium))
    (fun path _ =>
       if Str.startswith "/missing/" path
       then Some (OSError ("No such file or directory: " +:+ path))
       else None).

End Mini.

(** ** Vocabulary of the specification *)

Section Vocabulary.
Context {lib : Library} {web : Web}.

Definition is_print (ev : event) : Prop :=
  match ev with EvPrint _ => True | _ => False end.

(** The URLs of the [session.get] calls of a log, in order. *)
Fixpoint gets (log : list event) : list string :=
  match log with
  | [] => []
  | EvGet url :: rest => url :: gets rest
  | _ :: rest => gets rest
  end.

(** The output files a log writes. *)
Fixpoint writes (log : list event) : list string :=
  match log with
  | [] => []
  | EvWrite path _ :: rest => path :: writes rest
  | _ :: rest => writes rest
  end.

(** A run that performs a [session.get] with nothing but printing
    before it. *)
Definition reaches_fetch (log : list event) : Prop :=
  exists pre url rest, log = pre ++ EvGet url :: rest /\ Forall is_print pre.

(** The date filter in the words of the specification: no date passes,
    a date inside the inclusive range passes, an unparsable date string
    passes. *)
Definition passes_date_filter (start_date end_date : Date) (r : Review) : bool :=
  match date r with
  | None => true
  | Some s =>
      match dateparser_parse false s with
      | Some d => date_le start_date d && date_le d end_date
      | None => true
      end
  end.

(** The records the dedup loop keeps, given the descriptions seen so
    far: the loop without its accumulator. *)
Fixpoint kept (seen_desc : gset string) (reviews : list Review) : list Review :=
  match reviews with
  | [] => []
  | r :: rest =>
      if negb (truthy (description r)) || bool_decide (description r ∈ seen_desc)
      then kept seen_desc rest
      else r :: kept (seen_desc ∪ {[description r]}) rest
  end.

(** The descriptions seen once the loop has gone through [reviews]. *)
Fixpoint seen_after (seen_desc : gset string) (reviews : list Review) : gset string :=
  match reviews with
  | [] => seen_desc
  | r :: rest =>
      if negb (truthy (description r)) || bool_decide (description r ∈ seen_desc)
      then seen_after seen_desc rest
      else seen_after (seen_desc ∪ {[description r]}) rest
  end.

(** "Whitespace runs collapsed into single hyphens": every maximal run
    of whitespace becomes one hyphen. *)
Fixpoint hyphenate (s : string) : string :=
  match s with
  | EmptyString => EmptyString
  | String c s' =>
      if isspace c
      then match s' with
           | EmptyString => "-"
           | String c' _ => if isspace c' then hyphenate s' else String "-" (hyphenate s')
           end
      else String c (hyphenate s')
  end.

(** The slug in the words of the specification. *)
Definition slug_as_worded (company : string) : string :=
  hyphenate (keep_chars slug_keeps (lower company)).

(** What a capterra candidate URL yields: the link found on its page
    or the exception [urljoin] raises on it, nothing when the fetch
    fails or the page has no link. *)
Definition candidate_yield (use_selenium : bool) (url : string)
  : outcome (option string) :=
  match snd (fetch url use_selenium) with
  | Ok html => capterra_page_link (BeautifulSoup html)
  | _ => Ok None
  end.

(** The yield of the first candidate that does not yield nothing. *)
Fixpoint first_yield (use_selenium : bool) (candidates : list string)
  : outcome (option string) :=
  match candidates with
  | [] => Ok None
  | url :: rest =>
      match candidate_yield use_selenium url with
      | Ok None => first_yield use_selenium rest
      | yielded => yielded
      end
  end.

(** The candidates tried: up to and including the first that yields. *)
Fixpoint tried (use_selenium : bool) (candidates : list string) : list string :=
  match candidates with
  | [] => []
  | url :: rest =>
      match candidate_yield use_selenium url with
      | Ok None => url :: tried use_selenium rest
      | _ => [url]
      end
  end.

(** The URLs the walk can come to from [start_url]: each is the next
    link found on a fetched page of the one before. *)
Inductive reachable (use_selenium : bool) (start_url : string) : string -> Prop :=
| reach_start : reachable use_selenium start_url start_url
| reach_next url html next :
    reachable use_selenium start_url url ->
    snd (fetch url use_selenium) = Ok html ->
    find_next_link url (BeautifulSoup html) = Ok (Some next) ->
    reachable use_selenium start_url next.

(** [fails_after use_selenium url visited htmls]: from [url] the walk
    fetches the pages [htmls] one after the other, each leading to a
    fresh next URL, and the fetch after the last of them raises. *)
Inductive fails_after (use_selenium : bool)
  : string -> gset string -> list string -> Prop :=
| fails_here url visited e :
    truthy url = true -> url ∉ visited ->
    snd (fetch url use_selenium) = Raise e ->
    fails_after use_selenium url visited []
| fails_later url visited html next htmls :
    truthy url = true -> url ∉ visited ->
    snd (fetch url use_selenium) = Ok html ->
    find_next_link url (BeautifulSoup html) = Ok (Some next) ->
    fails_after use_selenium next (visited ∪ {[url]}) htmls ->
    fails_after use_selenium url visited (html :: htmls).

(** [r] was built from a candidate of [candidates] whose text has at
    least 40 characters. *)
Definition built_from (candidates : list Tag) (source : string) (r : Review) : Prop :=
  exists el,
    el ∈ candidates
    /\ r = build_review el (get_text " " true el) source
    /\ 40 <= Str.len (get_text " " true el).

(** The records of the pages [htmls], page after page. *)
Definition records_of (source : string) (htmls : list string) : list Review :=
  concat (map (fun html => parse_reviews_from_soup (BeautifulSoup html) source) htmls).

End Vocabulary.

(** ** Sample pages and webs *)

Module Sample.
Import Mini.

Definition url_a : string := "https://reviews.example/acme?page=1".
Definition url_b : string := "https://reviews.example/acme?page=2".

Definition body_a : string :=
  "This product has been a great help to our whole team, truly.".
Definition body_b : string :=
  "Support answered within the hour and fixed our import problem.".

(** Page 1: one review, dated, and a link to page 2. *)
Definition page_a : node :=
  Elem "html" []
    [ Elem "article" []
        [ Elem "h3" [] [Text "Great tool"];
          Elem "p" [] [Text body_a];
          Elem "time" [] [Text "2023-06-01"] ];
      Elem "a" [("href", url_b)] [Text "Next"] ].

(** Page 2: one review, and a link back to page 1. *)
Definition page_b : node :=
  Elem "html" []
    [ Elem "article" []
        [ Elem "h4" [] [Text "Fast support"];
          Elem "p" [] [Text body_b];
          Elem "time" [] [Text "2022-01-01"] ];
      Elem "a" [("href", url_a)] [Text "next page"] ].

(** A page with two reviews. *)
Definition page_pair : node :=
  Elem "html" []
    [ Elem "article" []
        [ Elem "h3" [] [Text "Great tool"];
          Elem "p" [] [Text body_a] ];
      Elem "article" []
        [ Elem "h4" [] [Text "Fast support"];
          Elem "p" [] [Text body_b] ] ].

(** A page whose only candidate has fewer than 40 characters of text. *)
Definition page_short : node :=
  Elem "html" [] [ Elem "article" [] [ Elem "p" [] [Text "Too short to be a review."] ] ].

Definition docs : Library :=
  library [("A", page_a); ("B", page_b); ("C", page_short)].

(** The endless site: the page at [url] has one review and a next
    link to [url] with one more [0], an absolute URL.  The source of a
    page is abbreviated to its URL. *)
Definition page_endless (url : string) : node :=
  Elem "html" []
    [ Elem "article" []
        [ Elem "h3" [] [Text "Great tool"];
          Elem "p" [] [Text body_a] ];
      Elem "a" [("href", url +:+ "0")] [Text "Next"] ].

Definition endless_docs : Library := library_of page_endless.

(** Every URL is served. *)
Definition endless_web : Web :=
  Build_Web false (fun url => inl (mkResponse 200 url)) (fun _ _ => EmptyString)
    None (fun url => inr (WebDriverException url)) (fun _ _ => None).

(** Page 2 with a next link that [urljoin] refuses. *)
Definition page_b_unjoinable : node :=
  Elem "html" []
    [ Elem "article" []
        [ Elem "h4" [] [Text "Fast support"];
          Elem "p" [] [Text body_b];
          Elem "time" [] [Text "2023-02-01"] ];
      Elem "a" [("href", "//[/page3")] [Text "Next"] ].

Definition unjoinable_docs : Library :=
  library [("A", page_a); ("B", page_b_unjoinable)].

(** Both pages are served: the chain has a cycle. *)
Definition web_cycle : Web :=
  web [(url_a, mkResponse 200 "A"); (url_b, mkResponse 200 "B")] None.

(** Page 2 cannot be reached. *)
Definition web_broken : Web := web [(url_a, mkResponse 200 "A")] None.

(** Page 1 answers 403; selenium is absent, present and working, or
    present and failing. *)
Definition forbidden : Response := mkResponse 403 "Forbidden".
Definition web_blocked : Web := web [(url_a, forbidden)] None.
Definition web_blocked_rendered : Web := web [(url_a, forbidden)] (Some [(url_a, "A")]).
Definition web_blocked_unrendered : Web := web [(url_a, forbidden)] (Some []).

(** Page 1 answers 403 and selenium is present, but the driver does not
    install. *)
Definition web_blocked_no_driver : Web :=
  Build_Web true (get [(url_a, forbidden)]) (fun _ _ => EmptyString)
    (Some (WebDriverException "chromedriver not found"))
    (fun _ => inl "A") (fun _ _ => None).

(** A g2 search page whose first product link [urljoin] refuses. *)
Definition search_page_unjoinable : node :=
  Elem "html" [] [ Elem "a" [("href", "//[/products/acme")] [Text "Acme"] ].

Definition g2_docs_unjoinable : Library := library [("S", search_page_unjoinable)].

Definition g2_web : Web :=
  web [("https://www.g2.com/search?q=Acme", mkResponse 200 "S")] None.

(** The capterra search for "Acme Corp" leads to page 1. *)
Definition search_page : node :=
  Elem "html" [] [ Elem "a" [("href", "/p/1234/acme")] [Text "Acme Corp"] ].

Definition capterra_docs : Library :=
  library [("S", search_page); ("A", page_a)].

Definition capterra_web : Web :=
  web [ ("https://www.capterra.com/search?search=Acme+Corp", mkResponse 200 "S");
        ("https://www.capterra.com/p/1234/acme", mkResponse 200 "A") ] None.

Definition args_2023 : Args :=
  mkArgs "Acme Corp" "2023-01-01" "2023-12-31" Capterra "reviews.json" false None.

(** The same request with the start after the end. *)
Definition args_reversed : Args :=
  mkArgs "Acme Corp" "2024-01-01" "2023-12-31" Capterra "reviews.json" false None.

Definition review_a : Review :=
  mkReview "Great tool" body_a (Some "2023-06-01") "g2" (mkAdditional None None).
Definition review_a_again : Review :=
  mkReview "Copy" body_a None "g2" (mkAdditional (Some "4/5") None).
Definition review_b : Review :=
  mkReview "Fast support" body_b (Some "2022-01-01") "g2" (mkAdditional None None).
(** A record with an empty description, which the extractor never builds. *)
Definition review_blank : Review :=
  mkReview "Blank" EmptyString None "g2" (mkAdditional None None).

Definition y2023_start : Date := mkDate 2023 1 1.
Definition y2023_end : Date := mkDate 2023 12 31.

End Sample.

(** ** Further vocabulary *)

Section MoreVocabulary.
Context {lib : Library} {web : Web}.

(** The transport signals a block for [url]: a 403 response, or an
    [HTTPError] that carries one. *)
Definition blocked (url : string) : bool :=
  match session_get url with
  | inl r => status_code r =? 403
  | inr (HTTPError _ response) => response_is_403 response
  | inr _ => false
  end.

(** The URLs Chrome is started on in a log, in order. *)
Fixpoint chromes (log : list event) : list string :=
  match log with
  | [] => []
  | EvChrome url :: rest => url :: chromes rest
  | _ :: rest => chromes rest
  end.

(** The candidates the extraction loop goes on to examine: the first
    element for each markup not in [seen]. *)
Fixpoint unseen (seen : gset string) (candidates : list Tag) : list Tag :=
  match candidates with
  | [] => []
  | el :: rest =>
      if decide (markup el ∈ seen) then unseen seen rest
      else el :: unseen (seen ∪ {[markup el]}) rest
  end.

(** The length test of the extraction loop. *)
Definition long_enough (el : Tag) : bool :=
  negb (negb (truthy (get_text " " true el)) || (Str.len (get_text " " true el) <? 40)).

(** The loop condition of the walk fails for [next_url]. *)
Definition walk_ends (next_url : option string) (visited : gset string) : Prop :=
  match next_url with
  | None => True
  | Some url => truthy url = false \/ url ∈ visited
  end.

(** [stops_after use_selenium url visited htmls]: from [url] the walk
    fetches the pages [htmls] one after the other, and the last of them
    has no next URL, or one that is empty or already visited. *)
Inductive stops_after (use_selenium : bool)
  : string -> gset string -> list string -> Prop :=
| stops_here url visited html next :
    truthy url = true -> url ∉ visited ->
    snd (fetch url use_selenium) = Ok html ->
    find_next_link url (BeautifulSoup html) = Ok next ->
    walk_ends next (visited ∪ {[url]}) ->
    stops_after use_selenium url visited [html]
| stops_later url visited html next htmls :
    truthy url = true -> url ∉ visited ->
    snd (fetch url use_selenium) = Ok html ->
    find_next_link url (BeautifulSoup html) = Ok (Some next) ->
    stops_after use_selenium next (visited ∪ {[url]}) htmls ->
    stops_after use_selenium url visited (html :: htmls).




(** The branch the loop of [main] takes for the source name [s]. *)
Definition scrape_named (fuel : nat) (company : string) (start_date end_date : Date)
    (use_selenium : bool) (s : string) : M (list Review) :=
  if String.eqb s "g2" then scrape_g2 fuel company start_date end_date use_selenium
  else if String.eqb s "capterra"
  then scrape_capterra fuel company start_date end_date use_selenium
  else if String.eqb s "trustradius"
  then scrape_trustradius fuel company start_date end_date use_selenium
  else ret [].



End MoreVocabulary.

(** ** fetch_capterra_html.py

    The stand-alone script that saves one rendered capterra page.  Its
    effects are the calls it makes on the browser and the file system;
    each may raise. *)

Module Script.

Inductive step :=
| Install                                  (* ChromeDriverManager().install() *)
| Start                                    (* webdriver.Chrome(service=..., options=opts) *)
| Load (url : string)                      (* driver.get(url) *)
| Pause (tenths : Z)                       (* sleep(tenths / 10) *)
| PageSource                               (* driver.page_source *)
| Save (path content : string)             (* open(path, "w", encoding="utf-8"); f.write(content) *)
| Say (line : string)                      (* print(line) *)
| Quit.                                    (* driver.quit() *)

Class Browser := {
  install : option exn;                    (* [None]: the driver is installed *)
  start : option exn;                      (* [None]: Chrome has started *)
  load : string -> option exn;
  page_source : string -> string + exn;    (* the source of the page loaded from a URL *)
  save : string -> string -> option exn;
  quit : option exn
}.

(** A run of the script: the calls made, in order, and how it ended. *)
Definition T (A : Type) : Type := list step * outcome A.

(** One call that returns or raises. *)
Definition call (s : step) (r : option exn) : T unit :=
  ([s], match r with None => Ok tt | Some e => Raise e end).

Definition read (s : step) (r : string + exn) : T string :=
  ([s], match r with inl v => Ok v | inr e => Raise e end).

Definition andthen {A B} (m : T A) (k : A -> T B) : T B :=
  match m with
  | (l, Ok a) => let '(l', o) := k a in (l ++ l', o)
  | (l, Raise e) => (l, Raise e)
  | (l, Exit c) => (l, Exit c)
  | (l, Diverge) => (l, Diverge)
  end.

(** [try: body  finally: cleanup]: the cleanup always runs; if it raises,
    its exception replaces the outcome of the body. *)
Definition finally {A} (body : T A) (cleanup : T unit) : T A :=
  let '(l, o) := body in
  let '(l', o') := cleanup in
  (l ++ l',
   match o' with
   | Ok _ => o
   | Raise e => Raise e
   | Exit c => Exit c
   | Diverge => Diverge
   end).

Notation "x <~ m ;; k" := (andthen m (fun x => k))
  (at level 100, m at next level, right associativity).

Definition url : string := "https://www.capterra.com/performance-appraisal-software/".

Section Run.
Context {browser : Browser}.

Definition script : T unit :=
  _ <~ call Install install ;;
  _ <~ call Start start ;;
  finally
    (_ <~ call (Load url) (load url) ;;
     _ <~ call (Pause 30) None ;;
     html <~ read PageSource (page_source url) ;;
     _ <~ call (Save "capterra_page.html" html) (save "capterra_page.html" html) ;;
     call (Say "Saved capterra_page.html") None)
    (call Quit quit).

(** Chrome has started: the installation and the constructor returned. *)
Definition started : bool :=
  match install, start with
  | None, None => true
  | _, _ => false
  end.

End Run.

(** How often a run quits the driver. *)
Fixpoint quits (log : list step) : nat :=
  match log with
  | [] => O
  | Quit :: rest => S (quits rest)
  | _ :: rest => quits rest
  end.

(** The pages a run loads. *)
Fixpoint loads (log : list step) : list string :=
  match log with
  | [] => []
  | Load u :: rest => u :: loads rest
  | _ :: rest => loads rest
  end.

(** The files a run opens for writing, with the content written. *)
Fixpoint saves (log : list step) : list (string * string) :=
  match log with
  | [] => []
  | Save path content :: rest => (path, content) :: saves rest
  | _ :: rest => saves rest
  end.

(** The lines a run prints. *)
Fixpoint says (log : list step) : list string :=
  match log with
  | [] => []
  | Say line :: rest => line :: says rest
  | _ :: rest => says rest
  end.

(** A browser on which every call returns, and one whose page load fails. *)
Definition working (html : string) : Browser :=
  Build_Browser None None (fun _ => None) (fun _ => inl html) (fun _ _ => None) None.

Definition unreachable : Browser :=
  Build_Browser None None (fun u => Some (WebDriverException ("net::ERR_NAME_NOT_RESOLVED " +:+ u)))
    (fun _ => inl EmptyString) (fun _ _ => None) None.

End Script.


(** ** Properties of the program *)

Section Facts.
Context {lib : Library} {web : Web}.

(** *** The dedup loop *)

Lemma dedupe_loop_kept reviews : forall seen_desc unique,
  dedupe_loop reviews seen_desc unique = unique ++ kept seen_desc reviews.
Proof.
  induction reviews as [|r rest IH]; intros seen_desc unique; simpl.
  - by rewrite app_nil_r.
  - destruct (negb (truthy (description r)) || bool_decide (description r ∈ seen_desc)).
    + apply IH.
    + rewrite IH, <- app_assoc. reflexivity.
Qed.

Lemma dedupe_kept reviews : dedupe reviews = kept ∅ reviews.
Proof. unfold dedupe. by rewrite dedupe_loop_kept. Qed.

Lemma kept_sublist reviews : forall seen_desc, sublist (kept seen_desc reviews) reviews.
Proof.
  induction reviews as [|r rest IH]; intros seen_desc; simpl.
  - constructor.
  - destruct (negb (truthy (description r)) || bool_decide (description r ∈ seen_desc)).
    + apply sublist_cons, IH.
    + apply sublist_skip, IH.
Qed.

Lemma length_append a b :
  String.length (a +:+ b) = (String.length a + String.length b)%nat.
Proof. induction a as [|c a IH]; simpl; [done|]. by rewrite IH. Qed.

Lemma truthy_nonempty s : truthy s = true <-> s <> EmptyString.
Proof. destruct s; simpl; split; congruence. Qed.

Lemma kept_elem reviews : forall seen_desc r,
  r ∈ kept seen_desc reviews ->
  r ∈ reviews /\ truthy (description r) = true /\ description r ∉ seen_desc.
Proof.
  induction reviews as [|r0 rest IH]; intros seen_desc r; simpl.
  - intros H. by apply elem_of_nil in H.
  - destruct (truthy (description r0)) eqn:Ht; simpl.
    + case_bool_decide as Hin; simpl.
      * intros H. destruct (IH _ _ H) as (? & ? & ?). split; [by right|done].
      * intros [->|H]%elem_of_cons.
        -- split; [by left|done].
        -- destruct (IH _ _ H) as (? & ? & Hn). split; [by right|].
           split; [done|]. intros ?. apply Hn, elem_of_union. by left.
    + intros H. destruct (IH _ _ H) as (? & ? & ?). split; [by right|done].
Qed.

Lemma kept_NoDup reviews : forall seen_desc,
  NoDup (map description (kept seen_desc reviews)).
Proof.
  induction reviews as [|r0 rest IH]; intros seen_desc; simpl.
  - constructor.
  - destruct (negb (truthy (description r0)) || bool_decide (description r0 ∈ seen_desc)).
    + apply IH.
    + simpl. constructor; [|apply IH].
      intros (r & Heq & Hin)%list_elem_of_fmap.
      apply kept_elem in Hin as (_ & _ & Hn). apply Hn.
      rewrite <- Heq. apply elem_of_union. right. by apply elem_of_singleton.
Qed.

Lemma kept_fixed l : forall seen_desc,
  NoDup (map description l) ->
  (forall r, r ∈ l -> truthy (description r) = true /\ description r ∉ seen_desc) ->
  kept seen_desc l = l.
Proof.
  induction l as [|r0 rest IH]; intros seen_desc Hnd Hall; simpl; [done|].
  destruct (Hall r0) as [Ht Hn]; [by left|].
  rewrite Ht. cbn [negb orb]. case_bool_decide; [done|].
  f_equal. inversion Hnd as [|? ? Hnotin Hnd']; subst.
  apply IH; [done|].
  intros r Hr. destruct (Hall r) as [? ?]; [by right|]. split; [done|].
  intros [?|Heq%elem_of_singleton]%elem_of_union; [done|].
  apply Hnotin. apply list_elem_of_fmap. exists r. split; [congruence|done].
Qed.

Lemma kept_app pre : forall seen_desc post,
  kept seen_desc (pre ++ post) = kept seen_desc pre ++ kept (seen_after seen_desc pre) post.
Proof.
  induction pre as [|r0 rest IH]; intros seen_desc post; simpl; [done|].
  destruct (negb (truthy (description r0)) || bool_decide (description r0 ∈ seen_desc)).
  - apply IH.
  - simpl. by rewrite IH.
Qed.

Lemma seen_after_elem pre : forall seen_desc x,
  x ∈ seen_after seen_desc pre <->
  x ∈ seen_desc \/ (truthy x = true /\ x ∈ map description pre).
Proof.
  induction pre as [|r0 rest IH]; intros seen_desc x; simpl.
  - split; [by left|]. intros [?|[_ H]]; [done|]. by apply elem_of_nil in H.
  - destruct (truthy (description r0)) eqn:Ht; simpl.
    + case_bool_decide as Hin; simpl; rewrite IH.
      * split; [intros [?|[? ?]]; [by left|right; split; [done|by right]]|].
        intros [?|[? [->|?]%elem_of_cons]]; [by left|by left|right; done].
      * rewrite elem_of_union, elem_of_singleton.
        split.
        -- intros [[?| ->]|[? ?]]; [by left|right; split; [done|by left]|right; split; [done|by right]].
        -- intros [?|[? [->|?]%elem_of_cons]]; [by left; left|by left; right|by right].
    + rewrite IH. split.
      * intros [?|[? ?]]; [by left|right; split; [done|by right]].
      * intros [?|[Hx [->|?]%elem_of_cons]]; [by left|congruence|by right].
Qed.

(** *** The date filter *)

Lemma filter_loop_filter start_date end_date reviews : forall filtered,
  filter_loop start_date end_date reviews filtered =
  filtered ++ List.filter (passes_date_filter start_date end_date) reviews.
Proof.
  induction reviews as [|r rest IH]; intros filtered; simpl.
  - by rewrite app_nil_r.
  - unfold passes_date_filter at 1.
    destruct (date r) as [s|]; [|by rewrite IH, <- app_assoc].
    destruct s as [|c s]; simpl.
    + rewrite dateparser_parse_empty. by rewrite IH, <- app_assoc.
    + destruct (dateparser_parse false (String c s)) as [d|];
        [|by rewrite IH, <- app_assoc].
      destruct (date_le start_date d && date_le d end_date).
      * by rewrite IH, <- app_assoc.
      * apply IH.
Qed.

Lemma filter_by_date_filter start_date end_date reviews :
  filter_by_date start_date end_date reviews =
  List.filter (passes_date_filter start_date end_date) reviews.
Proof. unfold filter_by_date. by rewrite filter_loop_filter. Qed.

Lemma filter_sublist {A} (p : A -> bool) (l : list A) : sublist (List.filter p l) l.
Proof.
  induction l as [|x l IH]; simpl; [constructor|].
  destruct (p x); [by apply sublist_skip | by apply sublist_cons].
Qed.

(** Claim C5.  The dedup pass is idempotent: run on its own output it
    changes nothing.  Its output holds at most one record per
    description text, whatever the other fields of the records are. *)
Theorem dedupe_idempotent (reviews : list Review) :
  dedupe (dedupe reviews) = dedupe reviews
  /\ NoDup (map description (dedupe reviews)).
Proof.
  rewrite !dedupe_kept. split; [|apply kept_NoDup].
  apply kept_fixed; [apply kept_NoDup|].
  intros r Hr. apply kept_elem in Hr as (_ & Ht & _). split; [done|].
  apply not_elem_of_empty.
Qed.

(** The dedup pass keeps no record with an empty description, and it
    keeps the first occurrence of every non-empty description text. *)
Lemma dedupe_keeps_first (reviews : list Review) :
  (forall r, r ∈ dedupe reviews -> description r <> EmptyString)
  /\ (forall pre r post,
        reviews = pre ++ r :: post ->
        description r <> EmptyString ->
        description r ∉ map description pre ->
        exists after,
          dedupe reviews = dedupe pre ++ r :: after
          /\ (forall r', r' ∈ after -> description r' <> description r)).
Proof.
  split.
  { intros r Hr. rewrite dedupe_kept in Hr.
    apply kept_elem in Hr as (_ & Ht & _). by apply truthy_nonempty. }
  intros pre r post -> Hne Hfresh.
  rewrite !dedupe_kept, kept_app. simpl.
  apply truthy_nonempty in Hne. rewrite Hne. cbn [negb orb].
  case_bool_decide as Hin.
  - apply seen_after_elem in Hin as [Hin|[_ Hin]]; [|done].
    by apply not_elem_of_empty in Hin.
  - eexists. split; [reflexivity|].
    intros r' Hr' Heq. apply kept_elem in Hr' as (_ & _ & Hn).
    apply Hn, elem_of_union. right. by apply elem_of_singleton.
Qed.

(** *** Where the filter is applied *)

Lemma scrape_with_pagination_eq fuel start_url source start_date end_date use_selenium :
  _scrape_with_pagination fuel start_url source start_date end_date use_selenium =
  let walk := walk_loop fuel source use_selenium (Some start_url) ∅ [] in
  (fst walk,
   match snd walk with
   | Ok walked => Ok (filter_by_date start_date end_date walked)
   | Raise e => Raise e
   | Exit c => Exit c
   | Diverge => Diverge
   end).
Proof.
  unfold _scrape_with_pagination.
  destruct (walk_loop fuel source use_selenium (Some start_url) ∅ []) as [l [walked|e|c|]];
    simpl; by rewrite ?app_nil_r.
Qed.

Lemma bind_ret_Ok {A B} (m : M A) (f : A -> B) l x :
  (a <- m ;; ret (f a)) = (l, Ok x) -> exists a, snd m = Ok a /\ x = f a.
Proof.
  destruct m as [l0 [a|e|c|]]; simpl; intros H; inversion H; subst; eauto.
Qed.

Lemma scrape_sources_extends fuel company start_date end_date use_selenium srcs :
  forall results log out,
    scrape_sources fuel company start_date end_date use_selenium srcs results = (log, Ok out) ->
    exists found, out = results ++ found.
Proof.
  induction srcs as [|s rest IH]; intros results log out; simpl.
  - intros H. inversion H; subst. exists []. by rewrite app_nil_r.
  - match goal with
    | |- context [try_except ?m ?h] => destruct (try_except m h) as [l1 o1] eqn:Htry
    end.
    assert (forall x, o1 = Ok x -> exists found, x = results ++ found) as Hstep.
    { intros x ->. revert Htry. unfold try_except.
      match goal with
      | |- context [match ?m with (_, _) => _ end] => destruct m as [l0 [y|e|c|]] eqn:Hm
      end; simpl; intros Htry; inversion Htry; subst.
      - repeat case_match; try (apply bind_ret_Ok in Hm as (a & _ & ->); eauto).
        inversion Hm; subst. exists []. by rewrite app_nil_r.
      - exists []. by rewrite app_nil_r. }
    destruct o1 as [x| | |]; simpl; try (intros H; inversion H; fail).
    destruct (Hstep x eq_refl) as [found ->].
    destruct (scrape_sources fuel company start_date end_date use_selenium rest
                (results ++ found)) as [l2 o2] eqn:Hrest.
    intros H. inversion H; subst.
    destruct (IH _ _ _ Hrest) as [found' ->].
    exists (found ++ found'). by rewrite app_assoc.
Qed.

(** Claim C3.  The date filter keeps exactly the records that pass, in
    order: a record without a date passes; a record whose date string
    parses to [d] passes iff [start_date <= d <= end_date], bounds
    included; a record whose date string does not parse passes.  The
    filter runs on the records of one walk, once the walk has ended, and
    [main] only appends each source's filtered records to the results
    of the sources before it. *)
Theorem date_filter_inclusive (start_date end_date : Date) (reviews : list Review) :
  filter_by_date start_date end_date reviews
    = List.filter (passes_date_filter start_date end_date) reviews
  /\ (forall r, date r = None -> passes_date_filter start_date end_date r = true)
  /\ (forall r s d,
        date r = Some s -> dateparser_parse false s = Some d ->
        passes_date_filter start_date end_date r
          = date_le start_date d && date_le d end_date)
  /\ (forall r s,
        date r = Some s -> dateparser_parse false s = None ->
        passes_date_filter start_date end_date r = true)
  /\ (forall fuel start_url source use_selenium,
        let walk := walk_loop fuel source use_selenium (Some start_url) ∅ [] in
        _scrape_with_pagination fuel start_url source start_date end_date use_selenium
          = (fst walk,
             match snd walk with
             | Ok walked => Ok (filter_by_date start_date end_date walked)
             | Raise e => Raise e
             | Exit c => Exit c
             | Diverge => Diverge
             end))
  /\ (forall fuel company use_selenium srcs results log out,
        scrape_sources fuel company start_date end_date use_selenium srcs results
          = (log, Ok out) ->
        exists found, out = results ++ found).
Proof.
  split; [apply filter_by_date_filter|].
  split; [intros r H; unfold passes_date_filter; by rewrite H|].
  split; [intros r s d H1 H2; unfold passes_date_filter; by rewrite H1, H2|].
  split; [intros r s H1 H2; unfold passes_date_filter; by rewrite H1, H2|].
  split; [intros; apply scrape_with_pagination_eq|].
  intros. by eapply scrape_sources_extends.
Qed.

(** *** The candidate loop *)

Lemma extract_loop_built all source candidates : forall seen reviews,
  (forall el, el ∈ candidates -> el ∈ all) ->
  Forall (built_from all source) reviews ->
  Forall (built_from all source) (extract_loop source candidates seen reviews).
Proof.
  induction candidates as [|el rest IH]; intros seen reviews Hsub Hacc; simpl; [done|].
  assert (forall el, el ∈ rest -> el ∈ all) as Hrest by (intros ? ?; apply Hsub; by right).
  case_decide; [by apply IH|].
  destruct (negb (truthy (get_text " " true el)) || (Str.len (get_text " " true el) <? 40))
    eqn:Hshort; [by apply IH|].
  apply IH; [done|]. apply Forall_app. split; [done|].
  constructor; [|constructor].
  exists el. split; [apply Hsub; by left|]. split; [done|].
  apply orb_false_iff in Hshort as [_ Hlen]. apply Z.ltb_ge in Hlen. exact Hlen.
Qed.

Lemma parse_reviews_built soup source :
  Forall (built_from (review_candidates soup) source) (parse_reviews_from_soup soup source).
Proof.
  unfold parse_reviews_from_soup. rewrite dedupe_kept.
  apply Forall_forall. intros r Hr.
  eapply elem_of_sublist in Hr; [|apply kept_sublist].
  revert r Hr. apply Forall_forall.
  apply extract_loop_built; [done|constructor].
Qed.

Lemma len_nonempty s : 40 <= Str.len s -> s <> EmptyString.
Proof. intros H ->. unfold Str.len in H. simpl in H. lia. Qed.

(** Claim C10.  The dedup pass and the date filter both return a
    subsequence of their input, in the input's order, whatever the
    input.  On the list [reviews] that the extractor hands to its dedup
    pass, the pass keeps the first occurrence of every description text:
    a record whose description does not occur before it is kept, right
    after what is kept of the records before it, and no record kept
    after it has the same description. *)
Theorem dedupe_and_filter_keep_order (soup : Tag) (source : string)
    (records : list Review) (start_date end_date : Date) :
  let reviews := extract_loop source (review_candidates soup) ∅ [] in
  sublist (dedupe records) records
  /\ sublist (filter_by_date start_date end_date records) records
  /\ parse_reviews_from_soup soup source = dedupe reviews
  /\ (forall pre r post,
        reviews = pre ++ r :: post ->
        description r ∉ map description pre ->
        exists after,
          dedupe reviews = dedupe pre ++ r :: after
          /\ (forall r', r' ∈ after -> description r' <> description r)).
Proof.
  intros reviews.
  split; [rewrite dedupe_kept; apply kept_sublist|].
  split; [rewrite filter_by_date_filter; apply filter_sublist|].
  split; [reflexivity|].
  intros pre r post Heq Hfresh.
  apply (proj2 (dedupe_keeps_first reviews) pre r post Heq); [|done].
  assert (Forall (built_from (review_candidates soup) source) reviews) as Hbuilt
    by (apply extract_loop_built; [done|constructor]).
  rewrite Forall_forall in Hbuilt.
  destruct (Hbuilt r) as (el & _ & -> & Hlen).
  - rewrite Heq. apply elem_of_app. right. by left.
  - by apply len_nonempty.
Qed.

(** Claim C4.  Every record the extractor returns has a description of
    at least 40 characters, hence not empty, which is the normalised
    text of one of the page's candidates; a candidate whose text has
    fewer than 40 characters is the description of no record. *)
Theorem short_text_never_a_description (soup : Tag) (source : string) :
  Forall (fun r => 40 <= Str.len (description r)
                   /\ description r <> EmptyString
                   /\ exists el, el ∈ review_candidates soup
                                 /\ description r = get_text " " true el)
         (parse_reviews_from_soup soup source)
  /\ (forall el,
        Str.len (get_text " " true el) < 40 ->
        forall r, r ∈ parse_reviews_from_soup soup source ->
                  description r <> get_text " " true el).
Proof.
  pose proof (parse_reviews_built soup source) as Hbuilt.
  split.
  - eapply Forall_impl; [exact Hbuilt|].
    intros r (el & Hel & -> & Hlen). simpl.
    split; [done|]. split; [by apply len_nonempty|]. by exists el.
  - intros el Hshort r Hr Heq.
    rewrite Forall_forall in Hbuilt.
    destruct (Hbuilt r Hr) as (el' & _ & -> & Hlen). simpl in Heq.
    rewrite Heq in Hlen. lia.
Qed.

(** Claim C8, amended.  Every record the extractor returns has the keys
    title, description, date, source and additional, in this order;
    rating and reviewer are the two fields of the nested [additional]
    object, reviewer is always null, and source is the source asked
    for. *)
Theorem record_shape (soup : Tag) (source0 : string) :
  Forall (fun r =>
            map fst (review_dict r)
              = ["title"; "description"; "date"; "source"; "additional"]
            /\ dict_get "additional" (review_dict r)
                = Some (VDict [ ("rating", opt_value (rating (additional r)));
                                ("reviewer", VNone) ])
            /\ reviewer (additional r) = None
            /\ source r = source0)
         (parse_reviews_from_soup soup source0).
Proof.
  eapply Forall_impl; [apply parse_reviews_built|].
  intros r (el & _ & -> & _). simpl. done.
Qed.

(** *** The slug *)

Lemma split_lstrip s : Str.split isspace (Str.lstrip isspace s) = Str.split isspace s.
Proof.
  induction s as [|a s IH]; simpl; [done|].
  destruct (isspace a) eqn:Ha; [done|]. simpl. by rewrite Ha.
Qed.

Lemma split_starts_word s :
  Str.starts_word isspace s = true -> Str.split isspace s <> [].
Proof.
  destruct s as [|a s]; simpl; [done|].
  intros Ha%negb_true_iff. rewrite Ha.
  destruct (Str.starts_word isspace s); [|done].
  by destruct (Str.split isspace s).
Qed.

Lemma rstrip_empty_split s :
  Str.rstrip isspace s = EmptyString -> Str.split isspace s = [].
Proof.
  induction s as [|a s IH]; simpl; [done|].
  destruct (Str.rstrip isspace s); [|done].
  destruct (isspace a); [auto|done].
Qed.

Lemma split_empty_rstrip s :
  Str.split isspace s = [] -> Str.rstrip isspace s = EmptyString.
Proof.
  induction s as [|a s IH]; simpl; [done|].
  destruct (isspace a) eqn:Ha.
  - intros H. by rewrite (IH H).
  - destruct (Str.starts_word isspace s); [|done].
    by destruct (Str.split isspace s).
Qed.

Lemma rstrip_starts_word s :
  Str.rstrip isspace s <> EmptyString ->
  Str.starts_word isspace (Str.rstrip isspace s) = Str.starts_word isspace s.
Proof.
  destruct s as [|a s]; simpl; [done|].
  destruct (Str.rstrip isspace s); [|done].
  destruct (isspace a) eqn:Ha; simpl; [by intros []|by rewrite Ha].
Qed.

Lemma join_cons_word a w ws :
  Str.join "-" (String a w :: ws) = String a (Str.join "-" (w :: ws)).
Proof. by destruct ws. Qed.

Lemma hyphenate_space a c r :
  isspace a = true ->
  hyphenate (String a (String c r)) =
  if isspace c then hyphenate (String c r) else String "-" (hyphenate (String c r)).
Proof. intros Ha. cbn [hyphenate]. by rewrite Ha. Qed.

Lemma hyphenate_word a s :
  isspace a = false -> hyphenate (String a s) = String a (hyphenate s).
Proof. intros Ha. cbn [hyphenate]. by rewrite Ha. Qed.

(** On the right-stripped string, [hyphenate] is the join of the words,
    after one hyphen when the string begins with whitespace. *)
Lemma hyphenate_rstrip s :
  hyphenate (Str.rstrip isspace s) =
  (if Str.starts_word isspace s then EmptyString
   else match Str.split isspace s with [] => EmptyString | _ => "-" end)
  +:+ Str.join "-" (Str.split isspace s).
Proof.
  induction s as [|a s IH]; [done|].
  cbn [Str.split Str.starts_word].
  destruct (isspace a) eqn:Ha; cbn [negb].
  - cbn [Str.rstrip].
    destruct (Str.rstrip isspace s) as [|c r] eqn:Hr.
    + rewrite Ha. by rewrite (rstrip_empty_split _ Hr).
    + assert (Str.rstrip isspace s <> EmptyString) as Hne by (by rewrite Hr).
      assert (Str.split isspace s <> []) as Hsp
        by (intros H; by apply split_empty_rstrip in H).
      pose proof (rstrip_starts_word s Hne) as Hsw. rewrite Hr in Hsw.
      rewrite (hyphenate_space _ _ _ Ha).
      destruct (Str.split isspace s) as [|w ws] eqn:Hsplit; [done|].
      simpl in Hsw. destruct (Str.starts_word isspace s) eqn:Hs.
      * apply negb_true_iff in Hsw. rewrite Hsw. by rewrite IH.
      * apply negb_false_iff in Hsw. rewrite Hsw. by rewrite IH.
  - assert (Str.rstrip isspace (String a s) = String a (Str.rstrip isspace s)) as ->.
    { simpl. destruct (Str.rstrip isspace s); by rewrite ?Ha. }
    rewrite (hyphenate_word _ _ Ha), IH.
    destruct (Str.starts_word isspace s) eqn:Hs.
    + destruct (Str.split isspace s) as [|w ws] eqn:Hsplit.
      * by apply split_starts_word in Hs.
      * by rewrite join_cons_word.
    + by destruct (Str.split isspace s) as [|w ws].
Qed.

Lemma join_split_hyphenate s :
  Str.join "-" (Str.split isspace s) = hyphenate (Str.strip isspace s).
Proof.
  unfold Str.strip. rewrite hyphenate_rstrip, split_lstrip.
  assert (Str.starts_word isspace (Str.lstrip isspace s) = true
          \/ Str.split isspace s = []) as [->| ->];
    [|done|by destruct (Str.starts_word isspace (Str.lstrip isspace s))].
  induction s as [|a s IH]; simpl; [by right|].
  destruct (isspace a) eqn:Ha; [done|]. left. simpl. by rewrite Ha.
Qed.

(** *** fetch *)

Lemma gets_app l1 l2 : gets (l1 ++ l2) = gets l1 ++ gets l2.
Proof. induction l1 as [|[] l1 IH]; simpl; congruence. Qed.

Lemma selenium_fetch_eq url :
  selenium_fetch url =
    match chrome_start with
    | Some e => ([], Raise (RuntimeError ("Selenium fetch failed: " +:+ exn_str e)))
    | None =>
        match chrome_page_source url with
        | inl html => ([EvChrome url; EvSleep 20], Ok html)
        | inr e => ([EvChrome url],
                    Raise (RuntimeError ("Selenium fetch failed: " +:+ exn_str e)))
        end
    end.
Proof.
  unfold selenium_fetch. destruct chrome_start; [done|].
  by destruct (chrome_page_source url).
Qed.

(** A call of [fetch] starts with its [session.get], performs no other,
    and returns or raises. *)
Lemma fetch_shape url use_selenium :
  exists rest o,
    fetch url use_selenium = (EvGet url :: rest, o)
    /\ gets rest = []
    /\ ((exists html, o = Ok html) \/ (exists e, o = Raise e)).
Proof.
  unfold fetch, raise_for_status. rewrite selenium_fetch_eq.
  destruct (session_get url) as [r|e]; simpl.
  - destruct ((status_code r =? 403) && SELENIUM_AVAILABLE) eqn:H403; simpl.
    + apply andb_true_iff in H403 as [_ ->]. simpl.
      destruct chrome_start; [|destruct (chrome_page_source url)]; simpl; eauto 10.
    + destruct ((400 <=? status_code r) && (status_code r <? 600)); simpl.
      * rewrite H403. simpl. eauto 10.
      * eauto 10.
  - destruct e as [m resp| | | | |]; simpl; eauto 10.
    destruct (response_is_403 resp && SELENIUM_AVAILABLE) eqn:H403; simpl; eauto 10.
    apply andb_true_iff in H403 as [_ ->]. simpl.
    destruct chrome_start; [|destruct (chrome_page_source url)]; simpl; eauto 10.
Qed.

Lemma fetch_403_eq url use_selenium r :
  session_get url = inl r -> status_code r = 403 ->
  fetch url use_selenium =
    if SELENIUM_AVAILABLE
    then (EvGet url :: fst (selenium_fetch url), snd (selenium_fetch url))
    else ([EvGet url], Raise (HTTPError (http_error_message url r) (Some r))).
Proof.
  intros Hget H403. unfold fetch. rewrite Hget. simpl.
  rewrite H403. simpl.
  destruct SELENIUM_AVAILABLE eqn:Hav; simpl.
  - by destruct (selenium_fetch url).
  - unfold raise_for_status. rewrite H403. simpl. by rewrite H403.
Qed.

(** Claim C2, amended.  When [session.get] answers 403: with selenium
    available, [fetch] returns the page Chrome renders, and raises
    [RuntimeError("Selenium fetch failed: ...")] when Chrome fails, be it
    when it starts or on the page; with selenium unavailable, [fetch]
    raises the [HTTPError] that [raise_for_status] builds for the 403
    response. *)
Theorem fetch_blocked (url : string) (use_selenium : bool) (r : Response) :
  session_get url = inl r ->
  status_code r = 403 ->
  snd (fetch url use_selenium) =
    if SELENIUM_AVAILABLE
    then match chrome_start with
         | Some e => Raise (RuntimeError ("Selenium fetch failed: " +:+ exn_str e))
         | None =>
             match chrome_page_source url with
             | inl html => Ok html
             | inr e => Raise (RuntimeError ("Selenium fetch failed: " +:+ exn_str e))
             end
         end
    else Raise (HTTPError (http_error_message url r) (Some r)).
Proof.
  intros Hget H403. rewrite (fetch_403_eq _ _ _ Hget H403), selenium_fetch_eq.
  destruct SELENIUM_AVAILABLE; [|done].
  destruct chrome_start; [done|]. by destruct (chrome_page_source url).
Qed.

(** *** capterra link discovery *)

Lemma capterra_try_first_yield use_selenium candidates :
  snd (capterra_try candidates use_selenium) = first_yield use_selenium candidates
  /\ gets (fst (capterra_try candidates use_selenium)) = tried use_selenium candidates.
Proof.
  induction candidates as [|url rest [IHo IHl]]; simpl; [done|].
  unfold candidate_yield.
  destruct (fetch_shape url use_selenium) as (l & o & Hf & Hl & [[html ->]|[e ->]]);
    rewrite Hf; simpl.
  - destruct (capterra_page_link (BeautifulSoup html)) as [[link|]|e|c|]; simpl;
      try (by rewrite !app_nil_r, Hl).
    destruct (capterra_try rest use_selenium) as [l' o']. simpl in *.
    by rewrite !app_nil_r, !gets_app, Hl, IHl.
  - destruct (capterra_try rest use_selenium) as [l' o']. simpl in *.
    by rewrite !app_nil_r, !gets_app, Hl, IHl.
Qed.

(** Claim C9, amended.  The capterra search has four candidate URLs, in
    order: the two search queries, [/p/<slug>] and [/software/<slug>].
    The slug is the lowercased name without the characters that are
    neither alphanumeric, whitespace nor hyphens, stripped of leading
    and trailing whitespace, with every remaining run of whitespace
    turned into one hyphen.  The search ends as the first candidate
    that yields something does: it returns the link of that candidate
    (its first matching anchor joined to the site root, else its
    canonical link), or raises what [urljoin] raises on that anchor.  It
    fetches the candidates in order up to that one, going on only after
    a candidate whose fetch fails or whose page has no link. *)
Theorem capterra_discovery (company : string) (use_selenium : bool) :
  capterra_candidates company
    = [ "https://www.capterra.com/search?search=" +:+ quote_plus company;
        "https://www.capterra.com/search?query=" +:+ quote_plus company;
        "https://www.capterra.com/p/" +:+ slugify company;
        "https://www.capterra.com/software/" +:+ slugify company ]
  /\ slugify company
      = hyphenate (Str.strip isspace (keep_chars slug_keeps (lower company)))
  /\ snd (capterra_search_company_link company use_selenium)
      = first_yield use_selenium (capterra_candidates company)
  /\ gets (fst (capterra_search_company_link company use_selenium))
      = tried use_selenium (capterra_candidates company).
Proof.
  split; [done|]. split; [apply join_split_hyphenate|].
  apply capterra_try_first_yield.
Qed.

(** *** The pagination walk *)

Lemma walk_loop_stop fuel source use_selenium url visited reviews :
  truthy url && negb (bool_decide (url ∈ visited)) = false ->
  walk_loop fuel source use_selenium (Some url) visited reviews = ([], Ok reviews).
Proof. intros H. destruct fuel; simpl; by rewrite H. Qed.

Lemma found_link_cases base href :
  (exists link, found_link base href = Ok (Some link))
  \/ (exists e, found_link base href = Raise e).
Proof. unfold found_link. destruct (urljoin base href); eauto. Qed.

(** The next link of a page is found, or [urljoin] raises. *)
Lemma find_next_link_cases url soup :
  (exists next, find_next_link url soup = Ok next)
  \/ (exists e, find_next_link url soup = Raise e).
Proof.
  unfold find_next_link.
  repeat case_match; eauto;
    match goal with
    | |- context [found_link ?b ?h] =>
        destruct (found_link_cases b h) as [[link ->]|[e ->]]; eauto
    end.
Qed.

Lemma walk_loop_step fuel source use_selenium url visited reviews :
  truthy url = true -> url ∉ visited ->
  walk_loop (S fuel) source use_selenium (Some url) visited reviews =
    match fetch url use_selenium with
    | (l, Ok html) =>
        let soup := BeautifulSoup html in
        match find_next_link url soup with
        | Ok next_link =>
            let next := walk_loop fuel source use_selenium next_link
                          (visited ∪ {[url]})
                          (reviews ++ parse_reviews_from_soup soup source) in
            (l ++ EvSleep 8 :: fst next, snd next)
        | Raise e => (l, Raise e)
        | Exit c => (l, Exit c)
        | Diverge => (l, Diverge)
        end
    | (l, Raise e) =>
        (l ++ [EvPrint ("Error fetching page " +:+ url +:+ ": " +:+ exn_str e)],
         Ok reviews)
    | (l, Exit c) => (l, Exit c)
    | (l, Diverge) => (l, Diverge)
    end.
Proof.
  intros Ht Hv. cbn [walk_loop]. rewrite Ht, bool_decide_eq_false_2 by done.
  cbn [negb andb].
  destruct (fetch url use_selenium) as [l [html|e|c|]]; simpl; try done.
  - destruct (find_next_link url (BeautifulSoup html)) as [next|e|c|]; simpl;
      rewrite ?app_nil_r; try done.
    by destruct (walk_loop fuel source use_selenium _ _ _) as [l' o'].
  - by rewrite app_nil_r.
Qed.

Lemma walk_loop_terminates (U : gset string) source use_selenium start_url :
  (forall url, reachable use_selenium start_url url -> url ∈ U) ->
  forall fuel next_url visited reviews,
    (forall url, next_url = Some url -> reachable use_selenium start_url url) ->
    (size (U ∖ visited) < fuel)%nat ->
    snd (walk_loop fuel source use_selenium next_url visited reviews) <> Diverge.
Proof.
  intros Hfinite. induction fuel as [|fuel IH]; intros next_url visited reviews Hin Hsize;
    [lia|].
  destruct next_url as [url|]; [|done].
  destruct (truthy url && negb (bool_decide (url ∈ visited))) eqn:Hcond.
  - apply andb_true_iff in Hcond as [Ht Hv].
    apply negb_true_iff, bool_decide_eq_false in Hv.
    rewrite walk_loop_step by done.
    destruct (fetch_shape url use_selenium) as (l & o & Hf & _ & [[html ->]|[e ->]]);
      rewrite Hf; [|done].
    cbn zeta.
    destruct (find_next_link_cases url (BeautifulSoup html)) as [[next Hn]|[e Hn]];
      rewrite Hn; [|done].
    cbn [snd]. apply IH.
    + intros next' ->. eapply reach_next; [by apply Hin| |exact Hn]. by rewrite Hf.
    + assert (U ∖ (visited ∪ {[url]}) ⊂ U ∖ visited) as Hsub.
      { pose proof (Hfinite url (Hin url eq_refl)) as HU. split.
        - intros x [Hx Hnx]%elem_of_difference. apply elem_of_difference.
          split; [done|]. intros ?. apply Hnx, elem_of_union. by left.
        - intros Hsup. assert (url ∈ U ∖ (visited ∪ {[url]})) as Hu
            by (apply Hsup, elem_of_difference; by split).
          apply elem_of_difference in Hu as [_ Hu]. apply Hu, elem_of_union.
          right. by apply elem_of_singleton. }
      apply subset_size in Hsub. lia.
  - by rewrite walk_loop_stop.
Qed.

Lemma walk_loop_gets source use_selenium : forall fuel next_url visited reviews,
  NoDup (gets (fst (walk_loop fuel source use_selenium next_url visited reviews)))
  /\ (forall url,
        url ∈ gets (fst (walk_loop fuel source use_selenium next_url visited reviews)) ->
        url ∉ visited).
Proof.
  induction fuel as [|fuel IH]; intros next_url visited reviews.
  - destruct next_url as [url|]; simpl; [|split; [constructor|by intros ? ?%elem_of_nil]].
    destruct (truthy url && negb (bool_decide (url ∈ visited))); simpl;
      (split; [constructor|by intros ? ?%elem_of_nil]).
  - destruct next_url as [url|]; [|simpl; split; [constructor|by intros ? ?%elem_of_nil]].
    destruct (truthy url && negb (bool_decide (url ∈ visited))) eqn:Hcond.
    + apply andb_true_iff in Hcond as [Ht Hv].
      apply negb_true_iff, bool_decide_eq_false in Hv.
      rewrite walk_loop_step by done.
      destruct (fetch_shape url use_selenium) as (l & o & Hf & Hl & [[html ->]|[e ->]]);
        rewrite Hf; cbn zeta.
      * destruct (find_next_link_cases url (BeautifulSoup html)) as [[next Hn]|[e Hn]];
          rewrite Hn; cbn [fst snd].
        -- cbn [app gets]. rewrite gets_app, Hl. cbn [app gets].
           match goal with
           | |- context [walk_loop fuel ?s ?u ?n ?v ?r] =>
               destruct (IH n v r) as [Hnd Hfresh]
           end.
           split.
           ++ constructor; [|done]. intros Hin%Hfresh. apply Hin, elem_of_union. right.
              by apply elem_of_singleton.
           ++ intros u [->|Hin%Hfresh]%elem_of_cons; [done|].
              intros ?. apply Hin, elem_of_union. by left.
        -- cbn [gets]. rewrite Hl.
           split; [apply NoDup_singleton|]. by intros u ->%list_elem_of_singleton.
      * cbn [fst app gets]. rewrite gets_app, Hl. simpl.
        split; [apply NoDup_singleton|]. by intros u ->%list_elem_of_singleton.
    + rewrite walk_loop_stop by done. simpl.
      split; [constructor|by intros ? ?%elem_of_nil].
Qed.

(** The walk returns, runs out of budget, or raises what [urljoin]
    raised on the next link of a page it fetched. *)
Lemma walk_loop_outcome source use_selenium start_url :
  forall fuel next_url visited reviews,
    (forall url, next_url = Some url -> reachable use_selenium start_url url) ->
    (exists out, snd (walk_loop fuel source use_selenium next_url visited reviews) = Ok out)
    \/ snd (walk_loop fuel source use_selenium next_url visited reviews) = Diverge
    \/ (exists e url html,
          snd (walk_loop fuel source use_selenium next_url visited reviews) = Raise e
          /\ reachable use_selenium start_url url
          /\ snd (fetch url use_selenium) = Ok html
          /\ find_next_link url (BeautifulSoup html) = Raise e).
Proof.
  induction fuel as [|fuel IH]; intros next_url visited reviews Hin.
  - destruct next_url as [url|]; simpl; [|left; by eexists].
    destruct (truthy url && negb (bool_decide (url ∈ visited))); simpl;
      [right; by left|left; by eexists].
  - destruct next_url as [url|]; [|left; by eexists].
    destruct (truthy url && negb (bool_decide (url ∈ visited))) eqn:Hcond.
    + apply andb_true_iff in Hcond as [Ht Hv].
      apply negb_true_iff, bool_decide_eq_false in Hv.
      rewrite walk_loop_step by done.
      destruct (fetch_shape url use_selenium) as (l & o & Hf & _ & [[html ->]|[e ->]]);
        rewrite Hf; cbn zeta; [|left; by eexists].
      assert (snd (fetch url use_selenium) = Ok html) as Hfo by (by rewrite Hf).
      destruct (find_next_link_cases url (BeautifulSoup html)) as [[next Hn]|[e Hn]];
        rewrite Hn; cbn [snd].
      * apply IH. intros next' ->. eapply reach_next; [by apply Hin|exact Hfo|exact Hn].
      * right. right. exists e, url, html. repeat split; [by apply Hin|done..].
    + rewrite walk_loop_stop by done. left. by eexists.
Qed.

Lemma walk_loop_no_exit source use_selenium fuel next_url visited reviews c :
  snd (walk_loop fuel source use_selenium next_url visited reviews) <> Exit c.
Proof.
  revert next_url visited reviews.
  induction fuel as [|fuel IH]; intros next_url visited reviews.
  - destruct next_url as [url|]; simpl; [|done].
    by destruct (truthy url && negb (bool_decide (url ∈ visited))).
  - destruct next_url as [url|]; [|done].
    destruct (truthy url && negb (bool_decide (url ∈ visited))) eqn:Hcond.
    + apply andb_true_iff in Hcond as [Ht Hv].
      apply negb_true_iff, bool_decide_eq_false in Hv.
      rewrite walk_loop_step by done.
      destruct (fetch_shape url use_selenium) as (l & o & Hf & _ & [[html ->]|[e ->]]);
        rewrite Hf; cbn zeta; [|done].
      destruct (find_next_link_cases url (BeautifulSoup html)) as [[next Hn]|[e Hn]];
        rewrite Hn; cbn [snd]; [apply IH|done].
    + by rewrite walk_loop_stop.
Qed.

Lemma walk_loop_fails_after source use_selenium url visited htmls :
  fails_after use_selenium url visited htmls ->
  forall fuel reviews,
    (length htmls < fuel)%nat ->
    snd (walk_loop fuel source use_selenium (Some url) visited reviews)
      = Ok (reviews ++ records_of source htmls).
Proof.
  induction 1 as [url visited e Ht Hv Hf|url visited html next htmls Ht Hv Hf Hnext _ IH];
    intros fuel reviews Hfuel; (destruct fuel as [|fuel]; [simpl in Hfuel; lia|]);
    rewrite walk_loop_step by done;
    destruct (fetch url use_selenium) as [l o]; simpl in Hf; subst o.
  - by rewrite app_nil_r.
  - cbn zeta. rewrite Hnext. cbn [snd]. rewrite IH by (simpl in Hfuel; lia).
    unfold records_of. simpl. by rewrite app_assoc.
Qed.

(** A walk that always finds a page and a fresh next link never ends:
    whatever the budget, it runs out. *)
Lemma walk_loop_endless (inv : string -> gset string -> Prop) source use_selenium :
  (forall url visited,
      inv url visited ->
      truthy url = true /\ (url ∉ visited)
      /\ (exists html next,
            snd (fetch url use_selenium) = Ok html
            /\ find_next_link url (BeautifulSoup html) = Ok (Some next)
            /\ inv next (visited ∪ {[url]}))) ->
  forall fuel url visited reviews,
    inv url visited ->
    snd (walk_loop fuel source use_selenium (Some url) visited reviews) = Diverge.
Proof.
  intros Hstep. induction fuel as [|fuel IH]; intros url visited reviews Hinv;
    destruct (Hstep url visited Hinv) as (Ht & Hv & html & next & Hf & Hn & Hinv').
  - simpl. by rewrite Ht, bool_decide_eq_false_2.
  - rewrite walk_loop_step by done.
    destruct (fetch url use_selenium) as [l o]. simpl in Hf. subst o.
    cbn zeta. rewrite Hn. cbn [snd]. by apply IH.
Qed.

(** Claim C6, amended.  On a finite page graph (the URLs the walk can
    come to from the start lie in the finite set [U]), cycles included,
    the walk ends within [size U + 1] iterations: it returns, or raises
    what [urljoin] raised; it fetches no URL twice; and it stops at once
    when there is no next URL or the next URL has been visited. *)
Theorem walk_terminates (U : gset string) (start_url source : string)
    (start_date end_date : Date) (use_selenium : bool) (fuel : nat) :
  (forall url, reachable use_selenium start_url url -> url ∈ U) ->
  (size U < fuel)%nat ->
  ((exists out,
       snd (_scrape_with_pagination fuel start_url source start_date end_date
              use_selenium) = Ok out)
   \/ (exists e,
         snd (_scrape_with_pagination fuel start_url source start_date end_date
                use_selenium) = Raise e))
  /\ NoDup (gets (fst (_scrape_with_pagination fuel start_url source start_date end_date
                         use_selenium)))
  /\ (forall visited reviews,
        walk_loop fuel source use_selenium None visited reviews = ([], Ok reviews))
  /\ (forall url visited reviews,
        url ∈ visited ->
        walk_loop fuel source use_selenium (Some url) visited reviews = ([], Ok reviews)).
Proof.
  intros Hfinite Hfuel. rewrite scrape_with_pagination_eq. cbn [fst snd].
  split; [|split; [apply walk_loop_gets|split]].
  - pose proof (walk_loop_terminates U source use_selenium start_url Hfinite fuel
                  (Some start_url) ∅ []) as Hend.
    pose proof (walk_loop_no_exit source use_selenium fuel (Some start_url) ∅ []) as Hexit.
    destruct (snd (walk_loop fuel source use_selenium (Some start_url) ∅ []))
      as [out|e|c|]; [left; by eexists|right; by eexists|by destruct (Hexit c)|].
    destruct Hend; [|eapply Nat.le_lt_trans; [apply subseteq_size|exact Hfuel]|done].
    + intros url [= <-]. constructor.
    + apply subseteq_difference_l. reflexivity.
  - intros visited reviews. by destruct fuel.
  - intros url visited reviews Hin. apply walk_loop_stop.
    rewrite bool_decide_eq_true_2 by done. apply andb_false_r.
Qed.

(** Claim C7, amended.  A fetch error never makes the walk raise: when
    the pages [htmls] are fetched one after the other and the fetch that
    follows raises, the walk ends there and returns the date-filtered
    records of [htmls].  The walk raises only what [urljoin] raised on
    the next link of a page it had fetched. *)
Theorem walk_keeps_partial_results (start_url source : string)
    (start_date end_date : Date) (use_selenium : bool) (fuel : nat) :
  (forall e,
      snd (_scrape_with_pagination fuel start_url source start_date end_date use_selenium)
        = Raise e ->
      exists url html,
        reachable use_selenium start_url url
        /\ snd (fetch url use_selenium) = Ok html
        /\ find_next_link url (BeautifulSoup html) = Raise e)
  /\ (forall htmls,
        fails_after use_selenium start_url ∅ htmls ->
        (length htmls < fuel)%nat ->
        snd (_scrape_with_pagination fuel start_url source start_date end_date
               use_selenium)
          = Ok (filter_by_date start_date end_date (records_of source htmls))).
Proof.
  rewrite scrape_with_pagination_eq. cbn [snd]. split.
  - intros e.
    destruct (walk_loop_outcome source use_selenium start_url fuel (Some start_url) ∅ [])
      as [[out ->]|[->|(e' & url & html & -> & Hr & Hf & Hn)]]; try done.
    + intros url [= <-]. constructor.
    + intros [= <-]. by exists url, html.
  - intros htmls Hfails Hfuel.
    by rewrite (walk_loop_fails_after source _ _ _ _ Hfails fuel []).
Qed.

(** *** main *)

Lemma reaches_fetch_app l l' : reaches_fetch l -> reaches_fetch (l ++ l').
Proof.
  intros (pre & url & rest & -> & Hpre). exists pre, url, (rest ++ l').
  split; [|done]. by rewrite <- app_assoc.
Qed.

Lemma reaches_fetch_bind {A B} (m : M A) (k : A -> M B) :
  reaches_fetch (fst m) -> reaches_fetch (fst (bind m k)).
Proof.
  destruct m as [l [a|e|c|]]; simpl; try done.
  destruct (k a) as [l' o]. simpl. apply reaches_fetch_app.
Qed.

Lemma reaches_fetch_try {A} (m : M A) (h : exn -> M A) :
  reaches_fetch (fst m) -> reaches_fetch (fst (try_except m h)).
Proof.
  destruct m as [l [a|e|c|]]; simpl; try done.
  destruct (h e) as [l' o]. simpl. apply reaches_fetch_app.
Qed.

Lemma reaches_fetch_print {B} line (k : unit -> M B) :
  reaches_fetch (fst (k tt)) -> reaches_fetch (fst (bind (print line) k)).
Proof.
  simpl. destruct (k tt) as [l o]. simpl.
  intros (pre & url & rest & -> & Hpre). exists (EvPrint line :: pre), url, rest.
  split; [done|]. by constructor.
Qed.

Lemma reaches_fetch_fetch url use_selenium :
  reaches_fetch (fst (fetch url use_selenium)).
Proof.
  destruct (fetch_shape url use_selenium) as (l & o & -> & _ & _).
  by exists [], url, l.
Qed.

Lemma scrape_sources_reaches_fetch fuel company start_date end_date use_selenium s rest
    results :
  s = "g2" \/ s = "capterra" \/ s = "trustradius" ->
  reaches_fetch
    (fst (scrape_sources fuel company start_date end_date use_selenium (s :: rest) results)).
Proof.
  intros Hs. cbn [scrape_sources]. apply reaches_fetch_bind, reaches_fetch_try.
  destruct Hs as [->|[->| ->]]; cbn [String.eqb Ascii.eqb Bool.eqb];
    apply reaches_fetch_bind; apply reaches_fetch_print, reaches_fetch_bind.
  - apply reaches_fetch_bind, reaches_fetch_fetch.
  - apply reaches_fetch_bind, reaches_fetch_try, reaches_fetch_bind, reaches_fetch_fetch.
  - apply reaches_fetch_bind, reaches_fetch_fetch.
Qed.

Lemma reaches_fetch_after_prints {A B} (m : M A) (k : A -> M B) a :
  snd m = Ok a -> Forall is_print (fst m) -> reaches_fetch (fst (k a)) ->
  reaches_fetch (fst (bind m k)).
Proof.
  destruct m as [l o]. simpl. intros -> Hl.
  destruct (k a) as [l' o']. simpl.
  intros (pre & url & rest & -> & Hpre). exists (l ++ pre), url, rest.
  split; [by rewrite <- app_assoc|]. by apply Forall_app.
Qed.

(** Claim C1, amended.  Before any network activity [main] checks that
    both dates parse, not their order.  If the start or the end date
    does not parse, the run prints the error and exits with code 1: no
    fetch, no output file.  If both parse, the run reaches a
    [session.get] with nothing before it but printing. *)
Theorem preflight_checks_dates_parse (fuel : nat) (args : Args) :
  match dateparser_parse false (arg_start args),
        dateparser_parse false (arg_end args) with
  | None, _ =>
      main fuel args = ([EvPrint ("Invalid date: " +:+ arg_start args)], Exit 1)
  | Some _, None =>
      main fuel args = ([EvPrint ("Invalid date: " +:+ arg_end args)], Exit 1)
  | Some _, Some _ =>
      reaches_fetch (fst (main fuel args))
  end.
Proof.
  unfold main, parse_date.
  destruct (dateparser_parse false (arg_start args)) as [d1|]; [|done].
  destruct (dateparser_parse false (arg_end args)) as [d2|]; [|done].
  eapply (reaches_fetch_after_prints _ _ (d1, d2)); [done|constructor|].
  cbn [fst snd].
  set (srcs := match arg_source args with
               | AllSources => _
               | _ => _
               end).
  assert (exists s rest, srcs = s :: rest
                         /\ (s = "g2" \/ s = "capterra" \/ s = "trustradius"))
    as (s & rest & -> & Hs).
  { subst srcs. destruct (arg_source args); simpl; eauto 10. }
  destruct (arg_use_selenium args && negb SELENIUM_AVAILABLE).
  - eapply (reaches_fetch_after_prints _ _ false);
      [done|by repeat constructor|].
    by apply reaches_fetch_bind, scrape_sources_reaches_fetch.
  - eapply (reaches_fetch_after_prints _ _ (arg_use_selenium args));
      [done|constructor|].
    by apply reaches_fetch_bind, scrape_sources_reaches_fetch.
Qed.

End Facts.

(** ** The program on the sample pages *)

Section Closed.
Import Sample.

(** The capterra run for 2023: the search page leads to page 1, whose
    review is kept; page 2 is not served by this web, so the walk ends
    there with what it has. *)
Example capterra_run_2023 :
  main (lib:=capterra_docs) (web:=capterra_web) 5 args_2023 =
    ([ EvPrint "[Capterra] searching for company page: Acme Corp";
       EvGet "https://www.capterra.com/search?search=Acme+Corp";
       EvPrint "[Capterra] found: https://www.capterra.com/p/1234/acme";
       EvGet "https://www.capterra.com/p/1234/acme";
       EvSleep 8;
       EvGet url_b;
       EvPrint ("Error fetching page " +:+ url_b +:+ ": Connection refused: " +:+ url_b);
       EvWrite "reviews.json"
         (mkReport "Acme Corp" "2023-01-01" "2023-12-31" "capterra"
            [ mkReview "Great tool"
                ("Great tool " +:+ body_a +:+ " 2023-06-01")
                (Some "2023-06-01") "capterra" (mkAdditional None None) ]);
       EvPrint "Wrote 1 reviews to reviews.json" ],
     Ok tt).
Proof. vm_compute. reflexivity. Qed.

Example unparsable_end_date :
  main (lib:=capterra_docs) (web:=capterra_web) 5
    (mkArgs "Acme Corp" "2023-01-01" "someday" Capterra "reviews.json" false None)
  = ([EvPrint "Invalid date: someday"], Exit 1).
Proof. vm_compute. reflexivity. Qed.

(** Counterexample for C1: the start date is after the end date, and
    the run fetches, writes the output file and ends normally. *)
Lemma start_after_end_still_fetches_and_writes :
  dateparser_parse (Library:=capterra_docs) false (arg_start args_reversed) = Some (mkDate 2024 1 1)
  /\ dateparser_parse (Library:=capterra_docs) false (arg_end args_reversed) = Some (mkDate 2023 12 31)
  /\ date_le (mkDate 2024 1 1) (mkDate 2023 12 31) = false
  /\ exit_code (snd (main (lib:=capterra_docs) (web:=capterra_web) 5 args_reversed)) = Some 0
  /\ gets (fst (main (lib:=capterra_docs) (web:=capterra_web) 5 args_reversed))
      = [ "https://www.capterra.com/search?search=Acme+Corp";
          "https://www.capterra.com/p/1234/acme";
          url_b ]
  /\ writes (fst (main (lib:=capterra_docs) (web:=capterra_web) 5 args_reversed)) = ["reviews.json"].
Proof. vm_compute. repeat split. Qed.

(** Counterexample for C2: on a 403 without selenium [fetch] raises the
    HTTP error of the response, not an error about rendering; with
    selenium present and Chrome failing it raises as well. *)
Lemma blocked_fetch_raises :
  SELENIUM_AVAILABLE (Web:=web_blocked) = false
  /\ session_get (Web:=web_blocked) url_a = inl forbidden
  /\ snd (fetch (web:=web_blocked) url_a false)
      = Raise (HTTPError ("403 Error for url: " +:+ url_a) (Some forbidden))
  /\ (forall msg, snd (fetch (web:=web_blocked) url_a false) <> Raise (RuntimeError msg))
  /\ SELENIUM_AVAILABLE (Web:=web_blocked_unrendered) = true
  /\ session_get (Web:=web_blocked_unrendered) url_a = inl forbidden
  /\ snd (fetch (web:=web_blocked_unrendered) url_a false)
      = Raise (RuntimeError
                 ("Selenium fetch failed: net::ERR_CONNECTION_REFUSED " +:+ url_a)).
Proof. vm_compute. repeat split. intros msg H. discriminate H. Qed.

(** Claim C2 at a page that answers 403 and that Chrome renders. *)
Lemma fetch_blocked_witness :
  session_get (Web:=web_blocked_rendered) url_a = inl forbidden
  /\ status_code forbidden = 403
  /\ snd (fetch (web:=web_blocked_rendered) url_a false) = Ok "A".
Proof.
  split; [reflexivity|]. split; [reflexivity|].
  exact (fetch_blocked (web:=web_blocked_rendered) url_a false forbidden eq_refl eq_refl).
Defined.

Example date_filter_2023 :
  filter_by_date (lib:=docs) y2023_start y2023_end [review_a; review_b; review_a_again]
  = [review_a; review_a_again].
Proof. vm_compute. reflexivity. Qed.

Example date_filter_bounds_inclusive :
  filter_by_date (lib:=docs) (mkDate 2023 6 1) (mkDate 2023 6 1) [review_a; review_b]
  = [review_a].
Proof. vm_compute. reflexivity. Qed.

Example short_candidate_discarded :
  parse_reviews_from_soup (lib:=docs) page_short "g2" = [].
Proof. vm_compute. reflexivity. Qed.

Example dedupe_first_wins :
  dedupe [review_a; review_b; review_a_again] = [review_a; review_b].
Proof. vm_compute. reflexivity. Qed.

(** Counterexample for C8: the record built from page 1 has no
    [rating] and no [reviewer] key; both sit under [additional]. *)
Lemma rating_and_reviewer_are_nested :
  map (fun r => (dict_get "rating" (review_dict r),
                 dict_get "reviewer" (review_dict r),
                 dict_get "additional" (review_dict r)))
      (parse_reviews_from_soup (lib:=docs) page_a "g2")
  = [ (None, None, Some (VDict [("rating", VNone); ("reviewer", VNone)])) ].
Proof. vm_compute. reflexivity. Qed.

(** Counterexample for C9: whitespace at the end of the filtered name
    gives no hyphen. *)
Lemma slug_drops_trailing_whitespace :
  slugify (lib:=docs) "Yahoo !" = "yahoo"
  /\ slug_as_worded (lib:=docs) "Yahoo !" = "yahoo-"
  /\ slugify (lib:=docs) "Yahoo !" <> slug_as_worded (lib:=docs) "Yahoo !".
Proof. vm_compute. repeat split. intros H. discriminate H. Qed.

(** A record with an empty description, which the extractor never
    builds, would not be kept. *)
Example dedupe_skips_blank_description :
  description review_blank = EmptyString
  /\ dedupe [review_blank; review_a] = [review_a].
Proof. vm_compute. repeat split. Qed.

(** Claim C10 at a page with two reviews: the second is kept right
    after the first. *)
Lemma dedupe_and_filter_keep_order_witness :
  extract_loop (lib:=docs) "g2" (review_candidates (lib:=docs) page_pair) ∅ []
    = [ mkReview "Great tool" ("Great tool " +:+ body_a) None "g2" (mkAdditional None None) ]
      ++ mkReview "Fast support" ("Fast support " +:+ body_b) None "g2" (mkAdditional None None)
      :: []
  /\ exists after,
      dedupe (extract_loop (lib:=docs) "g2" (review_candidates (lib:=docs) page_pair) ∅ [])
        = dedupe [ mkReview "Great tool" ("Great tool " +:+ body_a) None "g2"
                     (mkAdditional None None) ]
          ++ mkReview "Fast support" ("Fast support " +:+ body_b) None "g2"
               (mkAdditional None None) :: after
      /\ (forall r', r' ∈ after ->
                     description r' <> ("Fast support " +:+ body_b)%string).
Proof.
  split; [vm_compute; reflexivity|].
  apply (proj2 (proj2 (proj2
           (dedupe_and_filter_keep_order (lib:=docs) page_pair "g2" [] y2023_start
              y2023_end)))
           [ mkReview "Great tool" ("Great tool " +:+ body_a) None "g2"
               (mkAdditional None None) ]
           (mkReview "Fast support" ("Fast support " +:+ body_b) None "g2"
              (mkAdditional None None))
           []).
  - vm_compute. reflexivity.
  - cbn [map description]. apply not_elem_of_cons. split; [discriminate|].
    apply not_elem_of_nil.
Defined.

(** On the cyclic web the walk comes to the two pages only. *)
Lemma cycle_closed url :
  reachable (lib:=docs) (web:=web_cycle) false url_a url ->
  url ∈ ({[url_a; url_b]} : gset string).
Proof.
  induction 1 as [|url html next _ IH Hf Hnext].
  - apply elem_of_union. left. by apply elem_of_singleton.
  - apply elem_of_union in IH as [->%elem_of_singleton| ->%elem_of_singleton].
    + vm_compute in Hf. injection Hf as <-.
      vm_compute in Hnext. injection Hnext as <-.
      apply elem_of_union. right. by apply elem_of_singleton.
    + vm_compute in Hf. injection Hf as <-.
      vm_compute in Hnext. injection Hnext as <-.
      apply elem_of_union. left. by apply elem_of_singleton.
Defined.

(** Claim C6 on the two-page cycle. *)
Lemma walk_terminates_witness :
  ((exists out,
       snd (_scrape_with_pagination (lib:=docs) (web:=web_cycle) 4 url_a "g2"
              y2023_start y2023_end false) = Ok out)
   \/ (exists e,
         snd (_scrape_with_pagination (lib:=docs) (web:=web_cycle) 4 url_a "g2"
                y2023_start y2023_end false) = Raise e))
  /\ NoDup (gets (fst (_scrape_with_pagination (lib:=docs) (web:=web_cycle) 4 url_a "g2"
                          y2023_start y2023_end false))).
Proof.
  destruct (walk_terminates (lib:=docs) (web:=web_cycle) {[url_a; url_b]} url_a "g2"
              y2023_start y2023_end false 4) as (Hout & Hnd & _).
  - apply cycle_closed.
  - vm_compute. lia.
  - split; [exact Hout|exact Hnd].
Defined.

(** Counterexample for C6: on the endless site the page [...?page=1]
    links to [...?page=10], that one to [...?page=100] and so on, each
    a URL not seen before, and the walk does not end within any number
    of iterations. *)
Lemma endless_chain_exhausts_every_budget :
  ~ exists fuel,
      snd (_scrape_with_pagination (lib:=endless_docs) (web:=endless_web) fuel url_a "g2"
             y2023_start y2023_end false) <> Diverge.
Proof.
  intros [fuel Hend]. apply Hend. rewrite scrape_with_pagination_eq. cbn [snd].
  rewrite (walk_loop_endless (lib:=endless_docs) (web:=endless_web)
             (fun url visited =>
                (exists zeros, url = url_a +:+ zeros)
                /\ forall v, v ∈ visited -> (String.length v < String.length url)%nat)
             "g2" false); [done| |].
  - intros url visited [[zeros ->] Hshort]. split; [reflexivity|]. split.
    + intros Hin. apply Hshort in Hin. lia.
    + exists (url_a +:+ zeros), (url_a +:+ (zeros +:+ "0")).
      split; [reflexivity|]. split; [reflexivity|].
      split; [by eexists|].
      intros v Hv. rewrite !length_append. cbn [String.length].
      apply elem_of_union in Hv as [Hv| ->%elem_of_singleton].
      * apply Hshort in Hv. rewrite length_append in Hv. lia.
      * rewrite length_append. lia.
  - split; [by exists EmptyString|]. intros v Hv. by apply not_elem_of_empty in Hv.
Qed.

Example endless_chain_first_pages :
  _scrape_with_pagination (lib:=endless_docs) (web:=endless_web) 2 url_a "g2"
    y2023_start y2023_end false
  = ([ EvGet "https://reviews.example/acme?page=1"; EvSleep 8;
       EvGet "https://reviews.example/acme?page=10"; EvSleep 8 ],
     Diverge).
Proof. vm_compute. reflexivity. Qed.

(** Counterexample for C7: page 2 carries a next link that [urljoin]
    refuses; the walk raises, and the record of page 1 is not returned. *)
Lemma unjoinable_next_link_raises :
  parse_reviews_from_soup (lib:=unjoinable_docs) page_a "g2"
    = [ mkReview "Great tool" ("Great tool " +:+ body_a +:+ " 2023-06-01")
          (Some "2023-06-01") "g2" (mkAdditional None None) ]
  /\ urljoin (Library:=unjoinable_docs) url_b (Some "//[/page3")
      = inr (ValueError "Invalid IPv6 URL")
  /\ _scrape_with_pagination (lib:=unjoinable_docs) (web:=web_cycle) 5 url_a "g2"
        y2023_start y2023_end false
      = ([EvGet url_a; EvSleep 8; EvGet url_b], Raise (ValueError "Invalid IPv6 URL")).
Proof. vm_compute. repeat split. Qed.

Example cycle_visits_each_page_once :
  _scrape_with_pagination (lib:=docs) (web:=web_cycle) 4 url_a "g2"
    y2023_start y2023_end false
  = ([EvGet url_a; EvSleep 8; EvGet url_b; EvSleep 8],
     Ok [ mkReview "Great tool" ("Great tool " +:+ body_a +:+ " 2023-06-01")
            (Some "2023-06-01") "g2" (mkAdditional None None) ]).
Proof. vm_compute. reflexivity. Qed.

(** On the broken web page 1 is fetched and the fetch of page 2 raises. *)
Lemma broken_after_first_page :
  fails_after (lib:=docs) (web:=web_broken) false url_a ∅ ["A"].
Proof.
  eapply (fails_later _ url_a ∅ "A" url_b []).
  - reflexivity.
  - apply not_elem_of_empty.
  - reflexivity.
  - vm_compute. reflexivity.
  - eapply (fails_here _ url_b).
    + reflexivity.
    + intros [H|H%elem_of_singleton]%elem_of_union; [by apply not_elem_of_empty in H|].
      discriminate H.
    + vm_compute. reflexivity.
Defined.

(** Claim C7 on the broken web: the records of page 1 are returned. *)
Lemma walk_keeps_partial_results_witness :
  snd (_scrape_with_pagination (lib:=docs) (web:=web_broken) 2 url_a "g2"
         y2023_start y2023_end false)
  = Ok (filter_by_date (lib:=docs) y2023_start y2023_end
          (records_of (lib:=docs) "g2" ["A"])).
Proof.
  apply (proj2 (walk_keeps_partial_results (lib:=docs) (web:=web_broken) url_a "g2"
                  y2023_start y2023_end false 2) ["A"]).
  - apply broken_after_first_page.
  - simpl. lia.
Defined.

Example partial_results_of_broken_walk :
  _scrape_with_pagination (lib:=docs) (web:=web_broken) 2 url_a "g2"
    y2023_start y2023_end false
  = ([ EvGet url_a; EvSleep 8; EvGet url_b;
       EvPrint ("Error fetching page " +:+ url_b +:+ ": Connection refused: " +:+ url_b) ],
     Ok [ mkReview "Great tool" ("Great tool " +:+ body_a +:+ " 2023-06-01")
            (Some "2023-06-01") "g2" (mkAdditional None None) ]).
Proof. vm_compute. reflexivity. Qed.

(** Claim C3 at a record dated inside the range. *)
Lemma date_filter_inclusive_witness :
  date review_a = Some "2023-06-01"
  /\ dateparser_parse (Library:=docs) false "2023-06-01" = Some (mkDate 2023 6 1)
  /\ passes_date_filter (lib:=docs) y2023_start y2023_end review_a
      = date_le y2023_start (mkDate 2023 6 1) && date_le (mkDate 2023 6 1) y2023_end.
Proof.
  split; [reflexivity|]. split; [reflexivity|].
  apply (proj1 (proj2 (proj2
           (date_filter_inclusive (lib:=docs) (web:=web_cycle)
              y2023_start y2023_end [review_a])))
           review_a "2023-06-01" (mkDate 2023 6 1)); reflexivity.
Defined.

(** Claim C4 at an element with 25 characters of text. *)
Lemma short_text_never_a_description_witness :
  Str.len (get_text (Library:=docs) " " true page_short) < 40
  /\ (forall r, r ∈ parse_reviews_from_soup (lib:=docs) page_a "g2" ->
                description r <> get_text (Library:=docs) " " true page_short).
Proof.
  split; [vm_compute; reflexivity|].
  apply (proj2 (short_text_never_a_description (lib:=docs) page_a "g2") page_short).
  vm_compute. reflexivity.
Defined.

End Closed.

(** ** Further properties *)

Section MoreFacts.
Context {lib : Library} {web : Web}.

(** *** fetch *)

Lemma fetch_eq url use_selenium :
  fetch url use_selenium =
    if blocked url && SELENIUM_AVAILABLE
    then (EvGet url :: fst (selenium_fetch url), snd (selenium_fetch url))
    else ([EvGet url],
          match session_get url with
          | inl r =>
              if (400 <=? status_code r) && (status_code r <? 600)
              then Raise (HTTPError (http_error_message url r) (Some r))
              else Ok (text r)
          | inr e => Raise e
          end).
Proof.
  unfold fetch, blocked, raise_for_status.
  destruct (session_get url) as [r|e]; simpl.
  - destruct ((status_code r =? 403) && SELENIUM_AVAILABLE) eqn:H403; simpl.
    + apply andb_true_iff in H403 as [_ ->]. simpl.
      by destruct (selenium_fetch url).
    + destruct ((400 <=? status_code r) && (status_code r <? 600)); simpl; [|done].
      by rewrite H403.
  - destruct e as [m resp| | | | |]; simpl; try done.
    destruct (response_is_403 resp && SELENIUM_AVAILABLE) eqn:H403; simpl; [|done].
    apply andb_true_iff in H403 as [_ ->]. simpl.
    by destruct (selenium_fetch url).
Qed.

(** X1.  [fetch] starts with its [session.get], and Chrome is started on
    a URL exactly when the transport signals a 403 for it, selenium is
    available and the driver installs and starts: then once, after the
    [session.get], and on the URL fetched. *)
Theorem fetch_renders_only_when_blocked (url : string) (use_selenium : bool) :
  (exists rest, fst (fetch url use_selenium) = EvGet url :: rest
                /\ chromes (fst (fetch url use_selenium)) = chromes rest)
  /\ chromes (fst (fetch url use_selenium))
     = match chrome_start with
       | None => if blocked url && SELENIUM_AVAILABLE then [url] else []
       | Some _ => []
       end.
Proof.
  rewrite fetch_eq, selenium_fetch_eq.
  destruct (blocked url && SELENIUM_AVAILABLE), chrome_start as [e|];
    try destruct (chrome_page_source url); (split; [by eexists|done]).
Qed.

(** X2.  When the transport does not signal a 403, or selenium is not
    available, [fetch] performs its one [session.get] and nothing else:
    it returns the body of a response whose status is outside 400..599,
    raises the [HTTPError] of [raise_for_status] for a status inside, and
    lets an exception of [session.get] through unchanged. *)
Theorem fetch_without_fallback (url : string) (use_selenium : bool) :
  blocked url && SELENIUM_AVAILABLE = false ->
  fetch url use_selenium =
    ([EvGet url],
     match session_get url with
     | inl r =>
         if (400 <=? status_code r) && (status_code r <? 600)
         then Raise (HTTPError (http_error_message url r) (Some r))
         else Ok (text r)
     | inr e => Raise e
     end).
Proof. intros H. by rewrite fetch_eq, H. Qed.

(** X3.  [fetch] never raises its closing
    [RuntimeError("Unable to fetch URL: ...")]: a [RuntimeError] out of
    [fetch] is the one [session.get] raised or the wrapped failure of
    Chrome. *)
Theorem fetch_runtime_error_origin (url : string) (use_selenium : bool) (msg : string) :
  snd (fetch url use_selenium) = Raise (RuntimeError msg) ->
  session_get url = inr (RuntimeError msg)
  \/ (exists e, (chrome_start = Some e
                 \/ (chrome_start = None /\ chrome_page_source url = inr e))
                /\ msg = "Selenium fetch failed: " +:+ exn_str e).
Proof.
  rewrite fetch_eq, selenium_fetch_eq.
  destruct (blocked url && SELENIUM_AVAILABLE).
  - destruct chrome_start as [e|]; simpl.
    + intros [= <-]. right. exists e. split; [by left|done].
    + destruct (chrome_page_source url) as [html|e]; simpl; [done|].
      intros [= <-]. right. exists e. split; [by right|done].
  - simpl. destruct (session_get url) as [r|e].
    + by destruct ((400 <=? status_code r) && (status_code r <? 600)).
    + intros [= ->]. by left.
Qed.

(** *** Link discovery *)

(** X4.  The anchor loop of the three searches returns the [href] of the
    first anchor, in document order, that the pattern accepts, and
    nothing exactly when the pattern accepts no anchor. *)
Theorem first_href_is_first_match (p : string -> bool) (anchors : list Tag) :
  (forall href,
      first_href p anchors = Some href <->
      exists pre a post,
        anchors = pre ++ a :: post
        /\ getitem a "href" = href
        /\ p href = true
        /\ Forall (fun b => p (getitem b "href") = false) pre)
  /\ (first_href p anchors = None <->
      Forall (fun b => p (getitem b "href") = false) anchors).
Proof.
  induction anchors as [|a rest [IHs IHn]]; simpl.
  - split; [|done]. intros href. split; [done|].
    intros (pre & b & post & H & _). by destruct pre.
  - destruct (p (getitem a "href")) eqn:Hp.
    + split.
      * intros href. split.
        -- intros [= <-]. exists [], a, rest. by repeat split.
        -- intros (pre & b & post & Heq & <- & Hb & Hpre).
           destruct pre as [|c pre]; simpl in Heq; injection Heq as <- _; [done|].
           apply Forall_cons in Hpre as [Hc _]. congruence.
      * split; [done|]. intros [Ha _]%Forall_cons. congruence.
    + split.
      * intros href. rewrite IHs. split.
        -- intros (pre & b & post & -> & <- & Hb & Hpre).
           exists (a :: pre), b, post. repeat split; [done|]. by constructor.
        -- intros (pre & b & post & Heq & <- & Hb & Hpre).
           destruct pre as [|c pre]; simpl in Heq; injection Heq as <- Heq; [congruence|].
           apply Forall_cons in Hpre as [_ Hpre]. by exists pre, b, post.
      * rewrite IHn. split; [by constructor|]. by intros [_ ?]%Forall_cons.
Qed.

Lemma startswith_contains p s :
  Str.startswith p s = true -> Str.contains p s = true.
Proof. intros H. destruct s; simpl; by rewrite H. Qed.

(** X5.  In the g2 and trustradius pattern the [startswith("/products/")]
    test adds nothing: an [href] is accepted exactly when it contains
    [/products/] or [/product/]. *)
Theorem product_href_contains (href : string) :
  product_href href = Str.contains "/products/" href || Str.contains "/product/" href.
Proof.
  unfold product_href.
  destruct (Str.startswith "/products/" href) eqn:Hs; [|done].
  by rewrite (startswith_contains _ _ Hs).
Qed.






(** *** Review extraction *)

Lemma extract_loop_unseen source candidates : forall seen reviews,
  extract_loop source candidates seen reviews
  = reviews ++ map (fun el => build_review el (get_text " " true el) source)
                 (List.filter long_enough (unseen seen candidates)).
Proof.
  induction candidates as [|el rest IH]; intros seen reviews; simpl.
  - by rewrite app_nil_r.
  - case_decide; [apply IH|]. simpl. unfold long_enough at 1.
    destruct (negb (truthy (get_text " " true el)) || (Str.len (get_text " " true el) <? 40));
      simpl; rewrite IH; [done|]. by rewrite <- app_assoc.
Qed.

Lemma unseen_elem candidates : forall seen el,
  el ∈ unseen seen candidates -> el ∈ candidates /\ markup el ∉ seen.
Proof.
  induction candidates as [|c rest IH]; intros seen el; simpl.
  - by intros ?%elem_of_nil.
  - case_decide as Hc.
    + intros H. destruct (IH _ _ H). split; [by right|done].
    + intros [->|H]%elem_of_cons; [split; [by left|done]|].
      destruct (IH _ _ H) as [? Hn]. split; [by right|].
      intros ?. apply Hn, elem_of_union. by left.
Qed.

Lemma unseen_NoDup candidates : forall seen, NoDup (map markup (unseen seen candidates)).
Proof.
  induction candidates as [|c rest IH]; intros seen; simpl; [constructor|].
  case_decide; [apply IH|]. simpl. constructor; [|apply IH].
  intros (el & Heq & Hel)%list_elem_of_fmap. apply unseen_elem in Hel as [_ Hn].
  apply Hn. rewrite <- Heq. apply elem_of_union. right. by apply elem_of_singleton.
Qed.

Lemma unseen_covers candidates : forall seen el,
  el ∈ candidates ->
  markup el ∈ seen \/ exists el', el' ∈ unseen seen candidates /\ markup el' = markup el.
Proof.
  induction candidates as [|c rest IH]; intros seen el; simpl.
  - by intros ?%elem_of_nil.
  - intros [->|Hel]%elem_of_cons.
    + case_decide; [by left|]. right. exists c. split; [by left|done].
    + case_decide.
      * destruct (IH seen el Hel) as [?|(el' & ? & ?)]; [by left|right; by exists el'].
      * destruct (IH (seen ∪ {[markup c]}) el Hel) as [Hin|(el' & ? & ?)].
        -- apply elem_of_union in Hin as [?|Heq%elem_of_singleton]; [by left|].
           right. exists c. split; [by left|done].
        -- right. exists el'. split; [by right|done].
Qed.

(** X7.  The extractor builds its records from the first candidate of
    each distinct markup, in candidate order, keeping those with at
    least 40 characters of text, and then drops repeated descriptions.
    So an element found by several of the heuristics gives one record:
    among the elements used no markup occurs twice, and every candidate
    has its markup among them. *)
Theorem extraction_pipeline (soup : Tag) (source : string) :
  let used := unseen ∅ (review_candidates soup) in
  parse_reviews_from_soup soup source
    = dedupe (map (fun el => build_review el (get_text " " true el) source)
                (List.filter long_enough used))
  /\ NoDup (map markup used)
  /\ sublist used (review_candidates soup)
  /\ (forall el, el ∈ review_candidates soup ->
                 exists el', el' ∈ used /\ markup el' = markup el).
Proof.
  cbn zeta. split; [|split; [apply unseen_NoDup|split]].
  - unfold parse_reviews_from_soup. by rewrite extract_loop_unseen.
  - generalize (∅ : gset string).
    induction (review_candidates soup) as [|c rest IH]; intros seen; simpl; [constructor|].
    case_decide; [apply sublist_cons, IH|apply sublist_skip, IH].
  - intros el Hel. destruct (unseen_covers _ ∅ el Hel) as [Hin|H]; [|done].
    by apply not_elem_of_empty in Hin.
Qed.

Lemma append_cons_nonempty s c t : s +:+ String c t <> EmptyString.
Proof. by destruct s. Qed.

Lemma take_length n s : (String.length (Str.take n s) <= n)%nat.
Proof.
  unfold Str.take. revert s. induction n as [|n IH]; intros [|c s]; simpl; try lia.
  specialize (IH s). lia.
Qed.

Lemma isoformat_nonempty d : isoformat d <> EmptyString.
Proof. unfold isoformat. apply append_cons_nonempty. Qed.

(** X8.  Every record the extractor returns has a non-empty title: the
    text of its first [h3], else [h4], else [h2] when that text is not
    empty, and otherwise the first 120 characters of the description
    followed by three dots, at most 123 characters.  Its date is null or
    the ISO form of a calendar date, never the empty string. *)
Theorem record_title_and_date (soup : Tag) (source : string) :
  Forall (fun r =>
            title r <> EmptyString
            /\ (exists el,
                  el ∈ review_candidates soup
                  /\ description r = get_text " " true el
                  /\ title r
                      = match heading_title ["h3"; "h4"; "h2"] el with
                        | Some t => if truthy t then t
                                    else Str.take 120 (description r) +:+ "..."
                        | None => Str.take 120 (description r) +:+ "..."
                        end
                  /\ (heading_title ["h3"; "h4"; "h2"] el = None ->
                      (String.length (title r) <= 123)%nat)
                  /\ date r
                      = match first_date (find_all (Named ["time"; "span"; "p"]) el) with
                        | Some d => Some (isoformat d)
                        | None => None
                        end)
            /\ date r <> Some EmptyString)
         (parse_reviews_from_soup soup source).
Proof.
  eapply Forall_impl; [apply parse_reviews_built|].
  intros r (el & Hel & -> & Hlen). unfold build_review. cbn [title description date].
  assert (truthy (get_text " " true el) = true) as ->
    by (apply truthy_nonempty; by apply len_nonempty).
  split; [|split].
  - destruct (heading_title ["h3"; "h4"; "h2"] el) as [t|];
      [destruct (truthy t) eqn:Ht; [by apply truthy_nonempty|]|];
      apply append_cons_nonempty.
  - exists el. repeat split; try done. intros ->.
    rewrite length_append. pose proof (take_length 120 (get_text " " true el)).
    simpl. lia.
  - destruct (first_date _) as [d|]; [|done]. intros [= H]. by apply isoformat_nonempty in H.
Qed.

(** *** The slug *)

Lemma chars_append a b :
  list_ascii_of_string (a +:+ b) = list_ascii_of_string a ++ list_ascii_of_string b.
Proof. induction a as [|c a IH]; simpl; [done|]. by rewrite IH. Qed.

Lemma keep_chars_kept keep s :
  Forall (fun c => keep c = true) (list_ascii_of_string (keep_chars keep s)).
Proof.
  induction s as [|c s IH]; simpl; [constructor|].
  destruct (keep c) eqn:Hc; [|done]. simpl. by constructor.
Qed.

Lemma split_words (P : ascii -> Prop) s :
  Forall P (list_ascii_of_string s) ->
  Forall (fun w => Forall (fun c => P c /\ isspace c = false) (list_ascii_of_string w))
         (Str.split isspace s).
Proof.
  induction s as [|a s IH]; simpl; [constructor|].
  intros [Ha Hs]%Forall_cons. specialize (IH Hs).
  destruct (isspace a) eqn:Hsp; [done|].
  destruct (Str.starts_word isspace s).
  - destruct (Str.split isspace s) as [|w ws].
    + constructor; [|constructor]. simpl. by repeat constructor.
    + apply Forall_cons in IH as [Hw Hws]. constructor; [|done].
      simpl. by constructor.
  - constructor; [|done]. simpl. by repeat constructor.
Qed.

Lemma join_chars (R : ascii -> Prop) sep ws :
  Forall R (list_ascii_of_string sep) ->
  Forall (fun w => Forall R (list_ascii_of_string w)) ws ->
  Forall R (list_ascii_of_string (Str.join sep ws)).
Proof.
  intros Hsep. induction ws as [|w ws IH]; simpl; [constructor|].
  intros [Hw Hws]%Forall_cons. destruct ws as [|w' ws]; [done|].
  rewrite !chars_append. apply Forall_app. split; [done|].
  apply Forall_app. split; [done|]. by apply IH.
Qed.

(** X9.  The capterra slug contains only alphanumeric characters and
    hyphens: no whitespace and no other punctuation reaches the guessed
    URLs. *)
Theorem slug_characters (company : string) :
  Forall (fun c => isalnum c = true \/ c = "-"%char)
         (list_ascii_of_string (slugify company)).
Proof.
  unfold slugify. apply join_chars; [by repeat constructor|].
  eapply Forall_impl;
    [apply (split_words (fun c => slug_keeps c = true)), keep_chars_kept|].
  intros w Hw. eapply Forall_impl; [exact Hw|].
  intros c [Hk Hsp]. unfold slug_keeps in Hk. rewrite Hsp, orb_false_r in Hk.
  apply orb_true_iff in Hk as [?|Heq]; [by left|].
  right. by apply Ascii.eqb_eq in Heq.
Qed.

(** *** The date filter *)

Lemma date_le_trans a b c :
  date_le a b = true -> date_le b c = true -> date_le a c = true.
Proof.
  unfold date_le.
  rewrite !orb_true_iff, !andb_true_iff, !orb_true_iff, !andb_true_iff,
    !Z.ltb_lt, !Z.eqb_eq, !Z.leb_le.
  lia.
Qed.

(** X10.  When the start date is after the end date the filter keeps
    exactly the records without a date and those whose date string does
    not parse: no dated record passes. *)
Theorem reversed_range_keeps_undated (start_date end_date : Date) (r : Review) :
  date_le start_date end_date = false ->
  (passes_date_filter start_date end_date r = true <->
   match date r with
   | None => True
   | Some s => dateparser_parse false s = None
   end).
Proof.
  intros Hrev. unfold passes_date_filter.
  destruct (date r) as [s|]; [|done].
  destruct (dateparser_parse false s) as [d|]; [|done].
  split; [|done]. intros [H1 H2]%andb_true_iff.
  by rewrite (date_le_trans _ _ _ H1 H2) in Hrev.
Qed.

Lemma passes_wider s e s' e' r :
  date_le s' s = true -> date_le e e' = true ->
  passes_date_filter s e r = true -> passes_date_filter s' e' r = true.
Proof.
  intros Hs He. unfold passes_date_filter.
  destruct (date r) as [x|]; [|done].
  destruct (dateparser_parse false x) as [d|]; [|done].
  intros [H1 H2]%andb_true_iff. apply andb_true_iff.
  split; by eapply date_le_trans.
Qed.

(** X11.  Widening the date range never loses a record: the records
    kept for a range are a subsequence of those kept for any range that
    starts no later and ends no earlier.  Filtering twice with the same
    range is the same as filtering once. *)
Theorem date_filter_monotone (start_date end_date start_date' end_date' : Date)
    (reviews : list Review) :
  date_le start_date' start_date = true ->
  date_le end_date end_date' = true ->
  sublist (filter_by_date start_date end_date reviews)
          (filter_by_date start_date' end_date' reviews)
  /\ filter_by_date start_date end_date (filter_by_date start_date end_date reviews)
     = filter_by_date start_date end_date reviews.
Proof.
  intros Hs He. rewrite !filter_by_date_filter. split.
  - induction reviews as [|r rest IH]; simpl; [constructor|].
    destruct (passes_date_filter start_date end_date r) eqn:Hp.
    + rewrite (passes_wider _ _ _ _ _ Hs He Hp). by apply sublist_skip.
    + destruct (passes_date_filter start_date' end_date' r);
        [by apply sublist_cons|done].
  - induction reviews as [|r rest IH]; simpl; [done|].
    destruct (passes_date_filter start_date end_date r) eqn:Hp; [|done].
    simpl. by rewrite Hp, IH.
Qed.

(** *** Logs and outcomes of sequenced computations *)



Lemma fst_try {A} (m : M A) (h : exn -> M A) :
  fst (try_except m h) = fst m ++ match snd m with Raise e => fst (h e) | _ => [] end.
Proof. destruct m as [l [a|e|c|]]; simpl; rewrite ?app_nil_r; [done| |done..]. by destruct (h e). Qed.

Lemma snd_try {A} (m : M A) (h : exn -> M A) :
  snd (try_except m h) = match snd m with Raise e => snd (h e) | o => o end.
Proof. destruct m as [l [a|e|c|]]; simpl; [done| |done..]. by destruct (h e). Qed.


(** *** The pagination walk, to its end *)

Lemma walk_loop_stops_after source use_selenium url visited htmls :
  stops_after use_selenium url visited htmls ->
  forall fuel reviews,
    (length htmls <= fuel)%nat ->
    snd (walk_loop fuel source use_selenium (Some url) visited reviews)
      = Ok (reviews ++ records_of source htmls)
    /\ length (gets (fst (walk_loop fuel source use_selenium (Some url) visited reviews)))
       = length htmls.
Proof.
  induction 1 as [url visited html next Ht Hv Hf Hnext Hend
                 |url visited html next htmls Ht Hv Hf Hnext _ IH];
    intros fuel reviews Hfuel; (destruct fuel as [|fuel]; [simpl in Hfuel; lia|]);
    rewrite walk_loop_step by done;
    destruct (fetch_shape url use_selenium) as (l & o & Hfe & Hl & _);
    rewrite Hfe in *; simpl in Hf; subst o; cbn zeta; rewrite Hnext; cbn [fst snd].
  - assert (walk_loop fuel source use_selenium next
              (visited ∪ {[url]})
              (reviews ++ parse_reviews_from_soup (BeautifulSoup html) source)
            = ([], Ok (reviews ++ parse_reviews_from_soup (BeautifulSoup html) source)))
      as ->.
    { destruct next as [next|]; [|by destruct fuel].
      apply walk_loop_stop. destruct Hend as [->|Hin]; [done|].
      rewrite bool_decide_eq_true_2 by done. apply andb_false_r. }
    unfold records_of. simpl. rewrite app_nil_r. split; [done|].
    cbn [app gets]. by rewrite gets_app, Hl.
  - destruct (IH fuel (reviews ++ parse_reviews_from_soup (BeautifulSoup html) source))
      as [-> Hlen]; [simpl in Hfuel; lia|].
    unfold records_of. simpl. rewrite app_assoc. split; [done|].
    cbn [app gets]. rewrite gets_app, Hl. simpl. by rewrite Hlen.
Qed.

(** X12.  When the walk comes to its end without a fetch error (the
    last page has no next URL, or one that is empty or already visited)
    it returns the date-filtered records of all the pages, in page
    order, with one fetch per page; records are deduplicated within a
    page only, not across pages. *)
Theorem walk_returns_all_pages (start_url source : string) (start_date end_date : Date)
    (use_selenium : bool) (fuel : nat) (htmls : list string) :
  stops_after use_selenium start_url ∅ htmls ->
  (length htmls <= fuel)%nat ->
  snd (_scrape_with_pagination fuel start_url source start_date end_date use_selenium)
    = Ok (filter_by_date start_date end_date (records_of source htmls))
  /\ length (gets (fst (_scrape_with_pagination fuel start_url source start_date end_date
                          use_selenium)))
     = length htmls.
Proof.
  intros Hstops Hfuel. rewrite scrape_with_pagination_eq. cbn [fst snd].
  destruct (walk_loop_stops_after source _ _ _ _ Hstops fuel [] Hfuel) as [-> ->].
  done.
Qed.

(** *** What the sources return *)










Lemma scrape_sources_step (fuel : nat) (company : string)
    (start_date end_date : Date) (use_selenium : bool) (s : string) (rest : list string)
    (results : list Review) :
  scrape_sources fuel company start_date end_date use_selenium (s :: rest) results
  = match scrape_named fuel company start_date end_date use_selenium s with
    | (l, Ok found) =>
        let later := scrape_sources fuel company start_date end_date use_selenium rest
                       (results ++ found) in
        (l ++ fst later, snd later)
    | (l, Raise e) =>
        let later := scrape_sources fuel company start_date end_date use_selenium rest
                       results in
        (l ++ EvPrint ("Error scraping " +:+ s +:+ ": " +:+ exn_str e) :: fst later,
         snd later)
    | (l, Exit c) => (l, Exit c)
    | (l, Diverge) => (l, Diverge)
    end.
Proof.
  cbn [scrape_sources]. unfold scrape_named.
  destruct (String.eqb s "g2");
    [|destruct (String.eqb s "capterra");
      [|destruct (String.eqb s "trustradius")]];
    try (match goal with
         | |- context [try_except (found <- ?m ;; _) _] =>
             destruct m as [l [found|e|c|]]
         end; simpl; rewrite ?app_nil_r;
         try match goal with
             | |- context [scrape_sources ?f ?c ?s ?e ?u rest ?r] =>
                 destruct (scrape_sources f c s e u rest r) as [l' o']
             end; simpl; by rewrite <- ?app_assoc).
  simpl. rewrite app_nil_r.
  by destruct (scrape_sources fuel company start_date end_date use_selenium rest results).
Qed.




(** X13.  In the loop of [main] a source whose scrape raises is reported
    with a printed line and skipped: the results gathered so far are
    kept and the remaining sources are scraped as if it had not been
    asked for.  A source that returns has its records appended. *)
Theorem scrape_sources_isolates_failures (fuel : nat) (company : string)
    (start_date end_date : Date) (use_selenium : bool) (s : string) (rest : list string)
    (results : list Review) :
  scrape_sources fuel company start_date end_date use_selenium (s :: rest) results
  = match scrape_named fuel company start_date end_date use_selenium s with
    | (l, Ok found) =>
        let later := scrape_sources fuel company start_date end_date use_selenium rest
                       (results ++ found) in
        (l ++ fst later, snd later)
    | (l, Raise e) =>
        let later := scrape_sources fuel company start_date end_date use_selenium rest
                       results in
        (l ++ EvPrint ("Error scraping " +:+ s +:+ ": " +:+ exn_str e) :: fst later,
         snd later)
    | (l, Exit c) => (l, Exit c)
    | (l, Diverge) => (l, Diverge)
    end.
Proof. apply scrape_sources_step. Qed.


End MoreFacts.

(** ** Properties of fetch_capterra_html.py *)

Section ScriptFacts.
Import Script.
Context {browser : Browser}.

(** X15.  The script quits the driver exactly once, as its last call,
    whenever Chrome has started, whatever fails afterwards; when the
    installation or the start of Chrome raises, it loads no page, never
    quits and ends with that exception. *)
Theorem script_always_quits :
  quits (fst script) = (if started then 1%nat else 0%nat)
  /\ (started = true -> last (fst script) = Some Quit)
  /\ (started = false ->
      loads (fst script) = []
      /\ exists e, snd script = Raise e /\ (install = Some e \/ start = Some e)).
Proof.
  unfold script, started, call, read, finally, andthen.
  destruct install as [e1|]; [simpl; split; [done|split; [done|]]; intros _; split; eauto|].
  destruct start as [e2|]; [simpl; split; [done|split; [done|]]; intros _; split; eauto|].
  destruct (load url) as [e3|]; [by destruct quit|].
  destruct (page_source url) as [html|e4]; [|by destruct quit].
  destruct (save "capterra_page.html" html) as [e5|]; by destruct quit.
Qed.

(** X16.  The script opens [capterra_page.html] only after the page has
    loaded and its source has been read, and writes that source; it
    prints its closing line only when the file has been written; and it
    ends normally exactly when every call has returned, [quit]
    included. *)
Theorem script_saves_page_source :
  saves (fst script)
    = (if started
       then match load url, page_source url with
            | None, inl html => [("capterra_page.html", html)]
            | _, _ => []
            end
       else [])
  /\ says (fst script)
     = (if started
        then match load url, page_source url with
             | None, inl html =>
                 match save "capterra_page.html" html with
                 | None => ["Saved capterra_page.html"]
                 | Some _ => []
                 end
             | _, _ => []
             end
        else [])
  /\ (snd script = Ok tt <->
      started = true /\ load url = None
      /\ (exists html, page_source url = inl html
                       /\ save "capterra_page.html" html = None)
      /\ quit = None).
Proof.
  unfold script, started, call, read, finally, andthen.
  destruct install as [e1|]; [simpl; split; [done|split; [done|]]; split; [done|by intros []]|].
  destruct start as [e2|]; [simpl; split; [done|split; [done|]]; split; [done|by intros []]|].
  destruct (load url) as [e3|].
  { destruct quit; simpl; (split; [done|split; [done|]]); split; try done;
      by intros (_ & ? & _). }
  destruct (page_source url) as [html|e4].
  - destruct (save "capterra_page.html" html) as [e5|] eqn:Hsave;
      destruct quit; simpl; (split; [done|split; [done|]]); split; try done;
      try (by intros (_ & _ & _ & ?));
      try (by intros (_ & _ & (h & [= <-] & Hs) & _); congruence).
    intros _. repeat split. by exists html.
  - destruct quit; simpl; (split; [done|split; [done|]]); split; try done;
      by intros (_ & _ & (h & ? & _) & _).
Qed.

End ScriptFacts.

(** ** The further properties on the sample pages *)

Section MoreClosed.
Import Sample.

(** X2 on a page served with status 200. *)
Lemma fetch_without_fallback_witness :
  fetch (web:=web_cycle) url_a true = ([EvGet url_a], Ok "A").
Proof.
  exact (fetch_without_fallback (web:=web_cycle) url_a true eq_refl).
Defined.

Example fetch_not_found :
  fetch (web:=Mini.web [(url_a, mkResponse 404 "gone")] (Some [(url_a, "A")])) url_a true
  = ([EvGet url_a],
     Raise (HTTPError ("404 Error for url: " +:+ url_a) (Some (mkResponse 404 "gone")))).
Proof. vm_compute. reflexivity. Qed.

(** X3 on a page that answers 403 and that Chrome cannot render. *)
Lemma fetch_runtime_error_origin_witness :
  session_get (Web:=web_blocked_unrendered) url_a
    = inr (RuntimeError ("Selenium fetch failed: net::ERR_CONNECTION_REFUSED " +:+ url_a))
  \/ (exists e,
        (chrome_start (Web:=web_blocked_unrendered) = Some e
         \/ (chrome_start (Web:=web_blocked_unrendered) = None
             /\ chrome_page_source (Web:=web_blocked_unrendered) url_a = inr e))
        /\ "Selenium fetch failed: net::ERR_CONNECTION_REFUSED " +:+ url_a
           = "Selenium fetch failed: " +:+ exn_str e).
Proof.
  exact (fetch_runtime_error_origin (web:=web_blocked_unrendered) url_a false _ eq_refl).
Defined.

(** X10 on the reversed range 2023-12-31 .. 2023-01-01 and a dated record. *)
Lemma reversed_range_keeps_undated_witness :
  date_le y2023_end y2023_start = false
  /\ (passes_date_filter (lib:=docs) y2023_end y2023_start review_a = true <->
      dateparser_parse (Library:=docs) false "2023-06-01" = None).
Proof.
  split; [reflexivity|].
  exact (reversed_range_keeps_undated (lib:=docs) y2023_end y2023_start review_a eq_refl).
Defined.

(** X11: the records kept for June 2023 are among those kept for 2023. *)
Lemma date_filter_monotone_witness :
  sublist (filter_by_date (lib:=docs) (mkDate 2023 6 1) (mkDate 2023 6 30)
             [review_a; review_b; review_a_again])
          (filter_by_date (lib:=docs) y2023_start y2023_end
             [review_a; review_b; review_a_again]).
Proof.
  exact (proj1 (date_filter_monotone (lib:=docs) (mkDate 2023 6 1) (mkDate 2023 6 30)
                  y2023_start y2023_end [review_a; review_b; review_a_again]
                  eq_refl eq_refl)).
Defined.

(** On the cyclic web the walk fetches page 1 and page 2 and stops at the
    link back to page 1. *)
Lemma cycle_stops_after_two_pages :
  stops_after (lib:=docs) (web:=web_cycle) false url_a ∅ ["A"; "B"].
Proof.
  eapply (stops_later _ url_a ∅ "A" url_b ["B"]).
  - reflexivity.
  - apply not_elem_of_empty.
  - reflexivity.
  - vm_compute. reflexivity.
  - eapply (stops_here _ url_b _ "B" (Some url_a)).
    + reflexivity.
    + intros [H|H%elem_of_singleton]%elem_of_union; [by apply not_elem_of_empty in H|].
      discriminate H.
    + reflexivity.
    + vm_compute. reflexivity.
    + right. apply elem_of_union. left. apply elem_of_union. right.
      by apply elem_of_singleton.
Defined.

(** X12 on the cyclic web. *)
Lemma walk_returns_all_pages_witness :
  snd (_scrape_with_pagination (lib:=docs) (web:=web_cycle) 2 url_a "g2"
         y2023_start y2023_end false)
    = Ok (filter_by_date (lib:=docs) y2023_start y2023_end
            (records_of (lib:=docs) "g2" ["A"; "B"]))
  /\ length (gets (fst (_scrape_with_pagination (lib:=docs) (web:=web_cycle) 2 url_a "g2"
                          y2023_start y2023_end false)))
     = 2%nat.
Proof.
  apply (walk_returns_all_pages (lib:=docs) (web:=web_cycle) url_a "g2"
           y2023_start y2023_end false 2 ["A"; "B"]).
  - apply cycle_stops_after_two_pages.
  - simpl. lia.
Defined.


(** With all three sources asked and nothing served, each source is
    reported and the file is written with no review. *)
Example all_sources_fail :
  main (lib:=docs) (web:=Mini.web [] None) 3
    (mkArgs "Acme" "2023-01-01" "2023-12-31" AllSources "out.json" false None)
  = ([ EvPrint "[G2] searching for company page: Acme";
       EvGet "https://www.g2.com/search?q=Acme";
       EvPrint "Error scraping g2: Connection refused: https://www.g2.com/search?q=Acme";
       EvPrint "[Capterra] searching for company page: Acme";
       EvGet "https://www.capterra.com/search?search=Acme";
       EvGet "https://www.capterra.com/search?query=Acme";
       EvGet "https://www.capterra.com/p/acme";
       EvGet "https://www.capterra.com/software/acme";
       EvPrint "[Capterra] Company page not found";
       EvPrint "[TrustRadius] searching for company page: Acme";
       EvGet "https://www.trustradius.com/search?query=Acme";
       EvPrint "Error scraping trustradius: Connection refused: https://www.trustradius.com/search?query=Acme";
       EvWrite "out.json" (mkReport "Acme" "2023-01-01" "2023-12-31" "all" []);
       EvPrint "Wrote 0 reviews to out.json" ],
     Ok tt).
Proof. vm_compute. reflexivity. Qed.

(** The output file cannot be opened: the run raises after the scrape,
    and writes nothing. *)
Example output_file_cannot_be_opened :
  main (lib:=capterra_docs) (web:=capterra_web) 5
    (mkArgs "Acme Corp" "2023-01-01" "2023-12-31" Capterra "/missing/reviews.json"
       false None)
  = ([ EvPrint "[Capterra] searching for company page: Acme Corp";
       EvGet "https://www.capterra.com/search?search=Acme+Corp";
       EvPrint "[Capterra] found: https://www.capterra.com/p/1234/acme";
       EvGet "https://www.capterra.com/p/1234/acme";
       EvSleep 8;
       EvGet url_b;
       EvPrint ("Error fetching page " +:+ url_b +:+ ": Connection refused: " +:+ url_b) ],
     Raise (OSError "No such file or directory: /missing/reviews.json")).
Proof. vm_compute. reflexivity. Qed.

(** The driver does not install: Chrome is not started on the page. *)
Example fetch_when_chrome_does_not_start :
  fetch (web:=web_blocked_no_driver) url_a false
  = ([EvGet url_a], Raise (RuntimeError "Selenium fetch failed: chromedriver not found")).
Proof. vm_compute. reflexivity. Qed.

(** The g2 search raises what [urljoin] raises on the first product
    link, and [main] reports it for the source. *)
Example g2_search_unjoinable_href :
  g2_search_company_link (lib:=g2_docs_unjoinable) (web:=g2_web) "Acme" false
    = ([EvGet "https://www.g2.com/search?q=Acme"], Raise (ValueError "Invalid IPv6 URL"))
  /\ main (lib:=g2_docs_unjoinable) (web:=g2_web) 3
       (mkArgs "Acme" "2023-01-01" "2023-12-31" G2 "out.json" false None)
     = ([ EvPrint "[G2] searching for company page: Acme";
          EvGet "https://www.g2.com/search?q=Acme";
          EvPrint "Error scraping g2: Invalid IPv6 URL";
          EvWrite "out.json" (mkReport "Acme" "2023-01-01" "2023-12-31" "g2" []);
          EvPrint "Wrote 0 reviews to out.json" ],
        Ok tt).
Proof. vm_compute. split; reflexivity. Qed.

Example script_on_working_browser :
  Script.script (browser:=Script.working "<html></html>")
  = ([ Script.Install; Script.Start; Script.Load Script.url; Script.Pause 30;
       Script.PageSource; Script.Save "capterra_page.html" "<html></html>";
       Script.Say "Saved capterra_page.html"; Script.Quit ],
     Ok tt).
Proof. vm_compute. reflexivity. Qed.

Example script_on_unreachable_page :
  Script.script (browser:=Script.unreachable)
  = ([ Script.Install; Script.Start; Script.Load Script.url; Script.Quit ],
     Raise (WebDriverException ("net::ERR_NAME_NOT_RESOLVED " +:+ Script.url))).
Proof. vm_compute. reflexivity. Qed.

End MoreClosed.
